(** * Crystalball: chunk budget, correlation schemas, spectra, time indices
      and component clustering

    A shallow embedding of [Crystalball/budget.py] and of the functions of
    [Crystalball/crystalball.py] that decide how a prediction is laid out
    ([create_parser], [support_tables], [corr_schema], [einsum_schema],
    the nested [__cluster], and the flux, time-index and loop steps of
    [predict]), with the properties of the prediction pipeline stated over
    it.

    Conventions.
    - Python exceptions are values of [exn]; fallible code returns [result].
    - Python integers are [Z]. Python floats are idealised as real numbers
      ([R]) in the budget, where the arithmetic is the subject (binary64
      rounding can move a returned chunk size by one, so the theorems on the
      budget state relations and bounds, not the exact integers); they are kept
      abstract (a section variable) in the spectrum, where only the choice of
      the formula is; they are binary64 numbers in the clustering routine,
      which stores, sorts and compares them.
    - A Python namespace (the locals of a call, the globals of the module) is
      a finite map from names to values. *)

From Stdlib Require Import ZArith List Sorted String Ascii Bool Lia.
From Stdlib Require Import Floats.
From Stdlib Require Import Reals Lra.
From Stdlib Require Import DecimalString.
From stdpp Require Import gmap strings.

Import ListNotations.
#[local] Set Warnings "-register-all".
Local Open Scope Z_scope.
Local Open Scope string_scope.

(** ** Exceptions and results *)

Inductive exn : Type :=
| ValueError (msg : string)
| IndexError (msg : string)
| KeyError (key : string)
| NameError (name : string)
| AttributeError (msg : string)
| TypeError (msg : string)
| ZeroDivisionError
| SystemExit (code : Z).

Inductive result (A : Type) : Type :=
| Ok (a : A)
| Raise (e : exn).

Arguments Ok {A} a.
Arguments Raise {A} e.

Definition rbind {A B : Type} (m : result A) (k : A -> result B) : result B :=
  match m with
  | Ok a => k a
  | Raise e => Raise e
  end.

Notation "x <- m ;; k" := (rbind m (fun x => k))
  (at level 100, m at next level, right associativity).

Definition is_ok {A : Type} (m : result A) : bool :=
  match m with Ok _ => true | Raise _ => false end.

(** [ "%d" % n ] *)
Definition fmt_d (n : Z) : string := NilZero.string_of_int (Z.to_int n).

(** ** The POLARIZATION row and the two schemas *)

Module Schema.

(** [pol.NUM_CORR.values] and [pol.CORR_TYPE.values]. *)
Record pol : Type := { NUM_CORR : Z; CORR_TYPE : list Z }.

(** A Python list literal of correlation codes, nested for the 2x2 case. *)
Inductive pylist : Type :=
| Code (c : Z)
| PyList (items : list pylist).

(** The shape numpy gives the literal: the length at each nesting level,
    read along the first item. *)
Fixpoint shape (p : pylist) : list nat :=
  match p with
  | Code _ => []
  | PyList items =>
      List.length items ::
      match items with
      | [] => []
      | first :: _ => shape first
      end
  end.

(** [corr_types[i]] for a literal, non-negative [i]. *)
Definition getitem (corr_types : list Z) (i : nat) : result pylist :=
  match nth_error corr_types i with
  | Some c => Ok (Code c)
  | None => Raise (IndexError "index out of bounds")
  end.

(** The codes of a literal in the order numpy stores them (row by row). *)
Fixpoint flat (p : pylist) : list Z :=
  match p with
  | Code c => [c]
  | PyList items => flat_map flat items
  end.

Definition corrs_not_in (corrs : Z) : exn :=
  ValueError ("corrs " ++ fmt_d corrs ++ " not in (1, 2, 4)").

Definition corr_schema (p : pol) : result pylist :=
  let corrs := NUM_CORR p in
  let corr_types := CORR_TYPE p in
  if (corrs =? 4)%Z then
    c0 <- getitem corr_types 0 ;; c1 <- getitem corr_types 1 ;;
    c2 <- getitem corr_types 2 ;; c3 <- getitem corr_types 3 ;;
    Ok (PyList [PyList [c0; c1]; PyList [c2; c3]])
  else if (corrs =? 2)%Z then
    c0 <- getitem corr_types 0 ;; c1 <- getitem corr_types 1 ;;
    Ok (PyList [c0; c1])
  else if (corrs =? 1)%Z then
    c0 <- getitem corr_types 0 ;;
    Ok (PyList [c0])
  else Raise (corrs_not_in corrs).

Definition einsum_schema (p : pol) (dospec : bool) : result string :=
  let corrs := NUM_CORR p in
  if (corrs =? 4)%Z then
    if dospec then Ok "srf, sfij -> srfij" else Ok "srf, sij -> srfij"
  else if ((corrs =? 2) || (corrs =? 1))%Z then
    if dospec then Ok "srf, sfi -> srfi" else Ok "srf, si -> srfi"
  else Raise (corrs_not_in corrs).

(** *** Reading an einsum pattern

    [einsum] in explicit mode: the subscripts before [->] label the axes of
    the operands, those after it the axes of the result; a label of an
    operand that is absent from the result is summed over, every label of the
    result is kept as an axis. Blanks are ignored. *)

Record pattern : Type := { operands : list (list ascii); output : list ascii }.

Definition is_blank (c : ascii) : bool := Ascii.eqb c " "%char.

Fixpoint split_on (sep : ascii) (cur : list ascii) (l : list ascii)
  : list (list ascii) :=
  match l with
  | [] => [rev cur]
  | c :: l' =>
      if Ascii.eqb c sep then rev cur :: split_on sep [] l'
      else split_on sep (c :: cur) l'
  end.

(** Splits at the first ["->"]. *)
Fixpoint split_arrow (cur : list ascii) (l : list ascii)
  : option (list ascii * list ascii) :=
  match l with
  | [] => None
  | c :: l' =>
      match l' with
      | d :: l'' =>
          if Ascii.eqb c "-"%char && Ascii.eqb d ">"%char
          then Some (rev cur, l'')
          else split_arrow (c :: cur) l'
      | [] => None
      end
  end.

Definition parse (s : string) : option pattern :=
  let chars :=
    List.filter (fun c => negb (is_blank c)) (list_ascii_of_string s) in
  match split_arrow [] chars with
  | Some (ins, out) =>
      Some {| operands := split_on ","%char [] ins; output := out |}
  | None => None
  end.

Definition mem (c : ascii) (l : list ascii) : bool :=
  List.existsb (Ascii.eqb c) l.

Fixpoint dedup (l : list ascii) : list ascii :=
  match l with
  | [] => []
  | c :: l' => if mem c l' then dedup l' else c :: dedup l'
  end.

(** The labels the contraction sums over. *)
Definition summed (p : pattern) : list ascii :=
  dedup (List.filter (fun c => negb (mem c (output p)))
                     (List.concat (operands p))).

(** The labels of an operand other than source and frequency: its
    correlation axes. *)
Definition corr_axes (subs : list ascii) : list ascii :=
  List.filter (fun c => negb (mem c ["s"; "f"]%char)) subs.

(** A pattern collapses the source axis when it sums over the label [s]
    and its result has no such axis. *)
Definition collapses_source (p : pattern) : Prop :=
  List.In "s"%char (summed p) /\ ~ List.In "s"%char (output p).

(** *** What a two-operand pattern computes

    A tensor is read through its index tuple; [dims] gives the extent of
    each label. The element of the result at an index tuple of the output
    labels is the sum, over every assignment of the summed labels, of the
    product of the operands' elements. *)

Section Einsum.
Variable V : Type.
Variable vzero : V.
Variables vadd vmul : V -> V -> V.

Definition env : Type := ascii -> nat.

Definition bind_label (c : ascii) (n : nat) (e : env) : env :=
  fun c' => if Ascii.eqb c' c then n else e c'.

Fixpoint bind_all (labels : list ascii) (idx : list nat) (e : env) : env :=
  match labels, idx with
  | c :: labels', n :: idx' => bind_all labels' idx' (bind_label c n e)
  | _, _ => e
  end.

Fixpoint sum_over (dims : env) (ls : list ascii) (body : env -> V)
    (e : env) : V :=
  match ls with
  | [] => body e
  | c :: ls' =>
      fold_left
        (fun acc n => vadd acc (sum_over dims ls' body (bind_label c n e)))
        (seq 0 (dims c)) vzero
  end.

Definition einsum (p : pattern) (dims : env)
    (a b : list nat -> V) (idx : list nat) : V :=
  match operands p with
  | [sa; sb] =>
      sum_over dims (summed p)
        (fun e => vmul (a (List.map e sa)) (b (List.map e sb)))
        (bind_all (output p) idx (fun _ => 0%nat))
  | _ => vzero
  end.
End Einsum.

End Schema.

(** ** budget.py *)

Module Budget.
Local Open Scope R_scope.

(** The fields of the parsed command line that [get_budget] reads. *)
Record cb_args : Type := {
  num_workers : Z;
  model_chunks : Z;
  row_chunks : Z;
  memory_fraction : R
}.

(** What [psutil] reports: [virtual_memory()[0]] and [cpu_count()]. *)
Record psutil : Type := { virtual_memory_total : Z; cpu_count : Z }.

(** [{'complex':'complex64','dcomplex':'complex128'}[data_type]] *)
Definition dtype_name (data_type : string) : result string :=
  if String.eqb data_type "complex" then Ok "complex64"
  else if String.eqb data_type "dcomplex" then Ok "complex128"
  else Raise (KeyError data_type).

(** [np.dtype(name).itemsize] for the two names the table holds. *)
Definition itemsize (name : string) : Z :=
  if String.eqb name "complex64" then 8%Z else 16%Z.

(** [np.int(x)]: truncation towards zero. *)
Definition np_int (x : R) : Z :=
  if Rle_dec 0 x then Int_part x else (- Int_part (- x))%Z.

(** Real division; a zero divisor raises. *)
Definition rdiv (x y : R) : result R :=
  if Req_dec_T y 0 then Raise ZeroDivisionError else Ok (x / y).

(** [np.int(np.minimum(n, np.sqrt(x)))]: the square root of a negative
    number is not a number, and converting that to an integer raises. *)
Definition int_min_sqrt (n : Z) (x : R) : result Z :=
  if Rlt_dec x 0
  then Raise (ValueError "cannot convert float NaN to integer")
  else Ok (np_int (Rmin (IZR n) (sqrt x))).

(** The local variables of [get_budget] when it returns. *)
Record locals : Type := {
  rows_per_chunk : Z;
  sources_per_chunk : Z;
  memory_usage : R
}.

Definition truthy (n : Z) : bool := negb (n =? 0)%Z.

(** Lines 9-10: the number of worker threads. *)
Definition threads (ps : psutil) (args : cb_args) : Z :=
  if negb (truthy (num_workers args)) then cpu_count ps
  else num_workers args.

(** The body of [get_budget]. The [log.info] lines print the values computed
    here and change none of them; they are left out. *)
Definition get_budget_locals (ps : psutil)
    (nr_sources nr_rows nr_chans nr_corrs : Z) (data_type : string)
    (args : cb_args) (fudge_factor : R) (row2source_ratio : Z)
  : result locals :=
  let systmem := IZR (virtual_memory_total ps) in
  let nrthreads := threads ps args in
  name <- dtype_name data_type ;;
  let data_bytes := itemsize name in
  let bytes_per_row_source := (nr_chans * nr_corrs * data_bytes)%Z in
  let memory_per_row_source := IZR bytes_per_row_source * fudge_factor in
  if truthy (model_chunks args) && truthy (row_chunks args) then
    let rows := row_chunks args in
    let sources := model_chunks args in
    Ok {| rows_per_chunk := rows;
          sources_per_chunk := sources;
          memory_usage :=
            IZR rows * IZR sources * memory_per_row_source * IZR nrthreads |}
  else if negb (truthy (model_chunks args))
          && negb (truthy (row_chunks args)) then
    q <- rdiv (systmem * memory_fraction args) memory_per_row_source ;;
    allowed_rowXsource_per_thread <- rdiv q (IZR nrthreads) ;;
    rows <- int_min_sqrt nr_rows
              (allowed_rowXsource_per_thread * IZR row2source_ratio) ;;
    ratio <- rdiv (IZR rows) (IZR row2source_ratio) ;;
    let sources := np_int (Rmin (IZR nr_sources) ratio) in
    Ok {| rows_per_chunk := rows;
          sources_per_chunk := sources;
          memory_usage :=
            IZR rows * IZR sources * memory_per_row_source * IZR nrthreads |}
  else Raise (SystemExit 1).

(** [get_budget] with its default [fudge_factor=2.] and
    [row2source_ratio=100], as [predict] calls it. *)
Definition get_budget (ps : psutil)
    (nr_sources nr_rows nr_chans nr_corrs : Z) (data_type : string)
    (args : cb_args) : result (Z * Z) :=
  l <- get_budget_locals ps nr_sources nr_rows nr_chans nr_corrs data_type
         args 2 100 ;;
  Ok (rows_per_chunk l, sources_per_chunk l).

(** A machine of 1 GiB and one processor, and a command line that leaves
    the chunk sizes and the worker count at 0 and the memory fraction at
    its default, one half. *)
Definition small_machine : psutil :=
  {| virtual_memory_total := 1073741824; cpu_count := 1 |}.

Definition default_args : cb_args :=
  {| num_workers := 0; model_chunks := 0; row_chunks := 0;
     memory_fraction := 1 / 2 |}.

End Budget.

(** ** The numpy operations the pipeline relies on *)

Module Numpy.

(** [bool(a)] for an array [a]: an array of two or more elements has no
    truth value. *)
Definition truth_value (a : list bool) : result bool :=
  match a with
  | [] => Ok false
  | [b] => Ok b
  | _ :: _ :: _ =>
      Raise (ValueError
        "The truth value of an array with more than one element is ambiguous. Use a.any() or a.all()")
  end.

Section Unique.
Variable T : Type.
(** The order of the elements, [x <= y]. *)
Variable leb : T -> T -> bool.

Definition same (x y : T) : bool := leb x y && leb y x.

(** [x < y] *)
Definition before (x y : T) : Prop := leb y x = false.

(** [x <= y] *)
Definition upto (x y : T) : Prop := leb x y = true.

(** Insertion into an increasing list without repetitions. *)
Fixpoint insert_uniq (x : T) (l : list T) : list T :=
  match l with
  | [] => [x]
  | y :: l' =>
      if leb x y then (if leb y x then l else x :: l)
      else y :: insert_uniq x l'
  end.

(** [np.unique(a)]: the distinct elements of [a], in increasing order. *)
Definition unique (a : list T) : list T := fold_right insert_uniq [] a.

Fixpoint index_of (x : T) (u : list T) : nat :=
  match u with
  | [] => 0%nat
  | y :: u' => if same x y then 0%nat else S (index_of x u')
  end.

(** [np.unique(a, return_inverse=True)]: the distinct elements and, for
    each element of [a], its index among them. *)
Definition unique_inverse (a : list T) : list T * list nat :=
  let u := unique a in
  (u, List.map (fun x => index_of x u) a).

(** Modelled after the words "stable, order of first occurrence": the
    first timestamp gets 0, each timestamp not seen before gets the next
    free index, a timestamp seen before gets the index it got then. *)
Fixpoint first_seen (seen : list T) (a : list T) : list nat :=
  match a with
  | [] => []
  | x :: a' =>
      if List.existsb (same x) seen
      then index_of x seen :: first_seen seen a'
      else List.length seen :: first_seen (seen ++ [x]) a'
  end.

Definition first_occurrence_index (a : list T) : list nat :=
  first_seen [] a.
End Unique.

End Numpy.

(** ** crystalball.py, [predict]: time indices (line 380) *)

Module TimeIndex.

(** [_, time_index = da.unique(xds.TIME.data, return_inverse=True)] *)
Definition time_index {T : Type} (leb : T -> T -> bool) (TIME : list T)
  : list nat :=
  snd (Numpy.unique_inverse T leb TIME).

End TimeIndex.

(** ** crystalball.py, [predict]: the flux spectrum (lines 330-346) *)

Module Spectrum.

Section Flux.
(** The floating-point numbers and the operations on them. *)
Variable F : Type.
Variables fzero fone : F.
Variables fadd fsub fmul fdiv : F -> F -> F.
Variable fpow : F -> nat -> F.
Variables flog fexp : F -> F.

(** One row of the arrays [stokes], [spec_coeff] and [ref_freq], as lines
    333-341 index them: the arrays hold one row per source, in the same
    order. The array [log_spec_ind] is kept apart: the code never reads it
    by row. *)
Record source : Type := {
  stokes : F * F * F * F;
  spec_coeff : list F;
  ref_freq : F
}.

Definition stokes_I (s : source) : F :=
  let '(i, _, _, _) := stokes s in i.

(** [spec_coeff.shape[1]] *)
Definition shape1 (srcs : list source) : nat :=
  match srcs with
  | [] => 0%nat
  | s :: _ => List.length (spec_coeff s)
  end.

(** [spec_coeff[s, jj]] *)
Definition coeff (s : source) (jj : nat) : F := nth jj (spec_coeff s) fzero.

(** The matrix of one row per source and one column per frequency whose
    entry for the source [s] and the frequency [f] is [g s f]. *)
Definition tabulate (g : source -> F -> F) (srcs : list source)
    (frequency : list F) : list (list F) :=
  List.map (fun s => List.map (g s) frequency) srcs.

(** Lines 333 and 335: the matrix [Is], one row per source, one column
    per frequency. *)
Definition Is_init (log : bool) (srcs : list source) (frequency : list F)
  : list (list F) :=
  List.map
    (fun s =>
       List.map
         (fun f =>
            if log then fmul (flog (stokes_I s)) (fpow f 0)
            else fmul (stokes_I s) (fpow f 0))
         frequency)
    srcs.

(** The term lines 339 and 341 add at column [f] of the row of [s]. *)
Definition term (log : bool) (jj : nat) (s : source) (f : F) : F :=
  if log
  then fmul (coeff s jj) (flog (fpow (fdiv f (ref_freq s)) (jj + 1)))
  else fmul (coeff s jj) (fpow (fsub (fdiv f (ref_freq s)) fone) (jj + 1)).

(** [Is += ...] of lines 339 and 341, on the whole matrix. *)
Definition Is_add (log : bool) (jj : nat) (Is : list (list F))
    (srcs : list source) (frequency : list F) : list (list F) :=
  List.map
    (fun '(row, s) =>
       List.map (fun '(x, f) => fadd x (term log jj s f))
                (combine row frequency))
    (combine Is srcs).

(** [for jj in range(spec_coeff.shape[1])]: the flag array is tested
    again in each round. *)
Fixpoint Is_loop (log_spec_ind : list bool) (jjs : list nat)
    (Is : list (list F)) (srcs : list source) (frequency : list F)
  : result (list (list F)) :=
  match jjs with
  | [] => Ok Is
  | jj :: jjs' =>
      log <- Numpy.truth_value log_spec_ind ;;
      Is_loop log_spec_ind jjs' (Is_add log jj Is srcs frequency)
        srcs frequency
  end.

(** Lines 333-342: the matrix [Is]. *)
Definition flux (log_spec_ind : list bool) (srcs : list source)
    (frequency : list F) : result (list (list F)) :=
  log <- Numpy.truth_value log_spec_ind ;;
  let Is := Is_init log srcs frequency in
  Is <- Is_loop log_spec_ind (seq 0 (shape1 srcs)) Is srcs frequency ;;
  log <- Numpy.truth_value log_spec_ind ;;
  Ok (if log then List.map (List.map fexp) Is else Is).

(** Lines 343-346: [Qs], [Us], [Vs] are zero, and the four are stacked
    along a new last axis. *)
Definition spectrum (log_spec_ind : list bool) (srcs : list source)
    (frequency : list F) : result (list (list (F * F * F * F))) :=
  Is <- flux log_spec_ind srcs frequency ;;
  Ok (List.map (List.map (fun i => (i, fzero, fzero, fzero))) Is).

(** The value of one source at one frequency under each of the two
    models, with [n] coefficients: the ordinary polynomial
    ([log = false]) and the logarithmic one ([log = true]). *)
Definition model (log : bool) (n : nat) (s : source) (f : F) : F :=
  let start :=
    if log then fmul (flog (stokes_I s)) (fpow f 0)
    else fmul (stokes_I s) (fpow f 0) in
  let total :=
    fold_left (fun acc jj => fadd acc (term log jj s f)) (seq 0 n) start in
  if log then fexp total else total.

(** Modelled after the words "selecting log- or linear-domain per
    source": with one flag per source, every source is evaluated with the
    model its own flag names. *)
Definition flux_per_source (log_spec_ind : list bool) (srcs : list source)
    (frequency : list F) : list (list F) :=
  List.map
    (fun '(s, log) => List.map (model log (shape1 srcs) s) frequency)
    (combine srcs log_spec_ind).

(** The source with its [Q], [U] and [V] put to zero. *)
Definition only_I (s : source) : source :=
  {| stokes := (stokes_I s, fzero, fzero, fzero);
     spec_coeff := spec_coeff s;
     ref_freq := ref_freq s |}.

(** One model for the whole collection. *)
Definition flux_uniform (log : bool) (srcs : list source)
    (frequency : list F) : list (list F) :=
  List.map (fun s => List.map (model log (shape1 srcs) s) frequency) srcs.
End Flux.

Arguments stokes {F} _.
Arguments spec_coeff {F} _.
Arguments ref_freq {F} _.



End Spectrum.

(** ** crystalball.py, [predict]: the nested routine [__cluster]
       (lines 199-265) and its call (lines 267-277)

    The routine is run the way the interpreter runs it: every name is looked
    up when it is read, in the locals of the call, then in the variables of
    the enclosing function [predict], then in the globals of the module, then
    in the builtins; a name found nowhere raises. Values carry their dynamic
    type. *)

Module Cluster.

Inductive dtype : Type := DFloat | DInt | DBool | DStr | DObject.

Inductive value : Type :=
| VNone
| VBool (b : bool)
| VInt (n : Z)
| VFloat (x : float)
| VStr (s : string)
| VSlice (start stop : option Z)
| VTuple (items : list value)
| VList (items : list value)                 (* a Python list *)
| VArray (dt : dtype) (items : list value)   (* a numpy array, by rows *)
| VFun (name : string).                      (* a module or function, by name *)

(** *** Scopes *)

(** The parameters of [__cluster] and the names it assigns: its locals. *)
Definition cluster_locals : gset string :=
  list_to_set
    ["comp_type"; "radec"; "stokes"; "spec_coeff"; "ref_freq";
     "log_spec_ind"; "gaussian_shape"; "frequencies";
     "uniq_radec"; "ncomp_type"; "nradec"; "nstokes"; "nspec_coef";
     "nref_freq"; "nlog_spec_ind"; "ngaussian_shape";
     "urd"; "deltasel"; "polyspecsel"; "sel"; "Is"; "jj";
     "logpolyspecsel"; "Islogpoly"; "popt"; "pfitvar"; "pcov";
     "rd"; "stks"; "spec"; "ref"; "lspec"; "gs"].

(** The names [predict] assigns anywhere in its body: its locals. *)
Definition predict_locals : gset string :=
  list_to_set
    ["args"; "include_regions"; "exclude_regions"; "read_ds9"; "tempfile";
     "tmpfile"; "regfile"; "comp_type"; "radec"; "stokes"; "spec_coeff";
     "ref_freq"; "log_spec_ind"; "gaussian_shape"; "tables"; "field_ds";
     "ddid_ds"; "spw_ds"; "pol_ds"; "frequencies"; "__cluster"; "ms_rows";
     "ms_datatype"; "gaussian_components"; "gshape_chunks"; "spec_chunks";
     "writes"; "xds"; "field"; "ddid"; "spw"; "pol"; "frequency"; "corrs";
     "lm"; "uvw"; "Is"; "jj"; "Qs"; "Us"; "Vs"; "spectrum"; "phase";
     "brightness"; "jones"; "_"; "time_index"; "vis"; "model_data"; "write"].

(** Those of them that are bound when line 270 calls [__cluster]: the ones
    assigned on lines 162-199. ([read_ds9], [tempfile], [tmpfile] and
    [regfile] are bound only when a region file is given.) *)
Definition bound_at_call : gset string :=
  list_to_set
    ["args"; "include_regions"; "exclude_regions"; "comp_type"; "radec";
     "stokes"; "spec_coeff"; "ref_freq"; "log_spec_ind"; "gaussian_shape";
     "tables"; "field_ds"; "ddid_ds"; "spw_ds"; "pol_ds"; "frequencies";
     "__cluster"].

(** The names the module binds: its imports and its functions. *)
Definition module_globals : gset string :=
  list_to_set
    ["absolute_import"; "division"; "print_function"; "argparse";
     "ProgressBar"; "np"; "sys"; "dask"; "da"; "xr"; "xds_from_ms";
     "xds_from_table"; "xds_to_table"; "opt_import_error"; "curve_fit";
     "radec_to_lm"; "phase_delay"; "predict_vis"; "convert"; "gaussian";
     "requires_optional"; "casacore"; "get_budget"; "ms_preprocess";
     "import_from_wsclean"; "log"; "create_parser"; "support_tables";
     "corr_schema"; "einsum_schema"; "predict"].

(** The builtins the routine calls. *)
Definition builtins : gset string :=
  list_to_set ["range"; "zip"; "len"; "str"; "max"; "open"].

(** *** State and monad *)

Record state : Type := {
  locals : gmap string value;          (* the locals of the call *)
  logged : list (string * value)       (* what went to the logger *)
}.

Definition M (A : Type) : Type := state -> result (A * state).

Definition ret {A : Type} (a : A) : M A := fun st => Ok (a, st).

Definition bind {A B : Type} (m : M A) (k : A -> M B) : M B :=
  fun st =>
    match m st with
    | Ok (a, st') => k a st'
    | Raise e => Raise e
    end.

Definition raise {A : Type} (e : exn) : M A := fun _ => Raise e.

Definition lift {A : Type} (r : result A) : M A :=
  fun st => match r with Ok a => Ok (a, st) | Raise e => Raise e end.

Notation "x <~ m ;; k" := (bind m (fun x => k))
  (at level 100, m at next level, right associativity).
Notation "m ;;; k" := (bind m (fun _ => k))
  (at level 100, right associativity).

Fixpoint for_each {A : Type} (items : list A) (body : A -> M unit) : M unit :=
  match items with
  | [] => ret tt
  | x :: items' => body x ;;; for_each items' body
  end.

Fixpoint eval_all (es : list (M value)) : M (list value) :=
  match es with
  | [] => ret []
  | e :: es' => v <~ e ;; vs <~ eval_all es' ;; ret (v :: vs)
  end.

(** Reading a name. *)
Definition load (n : string) : M value :=
  fun st =>
    if bool_decide (n ∈ cluster_locals) then
      match locals st !! n with
      | Some v => Ok (v, st)
      | None => Raise (NameError n)       (* UnboundLocalError *)
      end
    else if bool_decide (n ∈ predict_locals) then
      if bool_decide (n ∈ bound_at_call) then Ok (VFun n, st)
      else Raise (NameError n)            (* free variable, not yet assigned *)
    else if bool_decide (n ∈ module_globals) || bool_decide (n ∈ builtins)
    then Ok (VFun n, st)
    else Raise (NameError n).

(** Assigning a local. *)
Definition store (n : string) (v : value) : M unit :=
  fun st => Ok (tt, {| locals := <[n := v]> (locals st); logged := logged st |}).

Definition assign (n : string) (e : M value) : M unit :=
  v <~ e ;; store n v.

Definition emit (level : string) (msg : value) : M unit :=
  fun st =>
    Ok (tt, {| locals := locals st; logged := logged st ++ [(level, msg)] |}).

(** *** Values: the operations the routine performs itself *)

Fixpoint flatten (v : value) : list value :=
  match v with
  | VArray _ items => flat_map flatten items
  | x => [x]
  end.

Definition as_float (v : value) : option float :=
  match v with VFloat x => Some x | _ => None end.

Fixpoint all_floats (vs : list value) : option (list float) :=
  match vs with
  | [] => Some []
  | v :: vs' =>
      match as_float v, all_floats vs' with
      | Some x, Some xs => Some (x :: xs)
      | _, _ => None
      end
  end.

Definition index_error_scalar : exn :=
  IndexError
    "only integers, slices (`:`), ellipsis (`...`), numpy.newaxis (`None`) and integer or boolean arrays are valid indices".

Definition index_error_array : exn :=
  IndexError "arrays used as indices must be of integer (or boolean) type".

Definition mask_of (v : value) : option bool :=
  match v with VBool b => Some b | _ => None end.

Fixpoint select (items mask : list value) : list value :=
  match items, mask with
  | x :: items', m :: mask' =>
      match mask_of m with
      | Some true => x :: select items' mask'
      | _ => select items' mask'
      end
  | _, _ => []
  end.

Definition scalar_truth (v : value) : bool :=
  match v with
  | VNone => false
  | VBool b => b
  | VInt n => negb (n =? 0)%Z
  | VFloat x => negb (PrimFloat.eqb x 0%float)
  | VStr s => negb (Nat.eqb (String.length s) 0)
  | VTuple items | VList items => negb (Nat.eqb (List.length items) 0)
  | _ => true
  end.

(** [bool(v)]; for an array, numpy's rule. *)
Definition truth (v : value) : result bool :=
  match v with
  | VArray _ _ =>
      match flatten v with
      | [] => Ok false
      | [x] => Ok (scalar_truth x)
      | _ :: _ :: _ =>
          Raise (ValueError
            "The truth value of an array with more than one element is ambiguous. Use a.any() or a.all()")
      end
  | _ => Ok (scalar_truth v)
  end.

(** [iter(v)] *)
Definition iter (v : value) : result (list value) :=
  match v with
  | VTuple items | VList items | VArray _ items => Ok items
  | _ => Raise (TypeError "object is not iterable")
  end.

Section Routine.
(** The library functions the routine calls and does not define: given the
    name of the function and its arguments, they return or raise. *)
Variable ext : string -> list value -> result value.

(** [np.unique(a)] for an array of floats. *)
Definition np_unique (a : value) : result value :=
  match a with
  | VArray DFloat _ =>
      match all_floats (flatten a) with
      | Some xs =>
          Ok (VArray DFloat
                (List.map VFloat (Numpy.unique float PrimFloat.leb xs)))
      | None => ext "np.unique" [a]
      end
  | _ => ext "np.unique" [a]
  end.

(** [a[i]]. numpy takes integers, slices, [None] and arrays of integers
    or booleans as indices; a float, or an array of floats, is none of
    them. *)
Definition getitem (a i : value) : result value :=
  match a, i with
  | VArray _ _, VFloat _ => Raise index_error_scalar
  | VArray _ _, VArray DFloat _ => Raise index_error_array
  | VArray dt items, VArray DBool mask =>
      Ok (VArray dt (select items mask))
  | VArray _ items, VInt n =>
      let len := Z.of_nat (List.length items) in
      let k := if (n <? 0)%Z then (n + len)%Z else n in
      if ((0 <=? k) && (k <? len))%Z
      then Ok (nth (Z.to_nat k) items VNone)
      else Raise (IndexError "index out of bounds")
  | _, _ => ext "getitem" [a; i]
  end.

(** *** Expressions

    Operands are evaluated from left to right, then the operation is
    applied. *)

Definition const (v : value) : M value := ret v.

Definition tuple (es : list (M value)) : M value :=
  vs <~ eval_all es ;; ret (VTuple vs).

Definition index (a i : M value) : M value :=
  va <~ a ;; vi <~ i ;; lift (getitem va vi).

(** An operator, or a function named by a literal: [op(args)]. *)
Definition apply (op : string) (args : list (M value)) : M value :=
  vs <~ eval_all args ;; lift (ext op vs).

(** The library function [f] reached through the name [n]: the name is
    read first, then the arguments are evaluated. *)
Definition call_through (n f : string) (args : list (M value)) : M value :=
  _ <~ load n ;;
  vs <~ eval_all args ;;
  lift (ext f vs).

(** A call [n(args)]. *)
Definition call (n : string) (args : list (M value)) : M value :=
  call_through n n args.

(** A call [n.attr(args)] of a function of the module [n]. *)
Definition method (n attr : string) (args : list (M value)) : M value :=
  call_through n (n ++ "." ++ attr) args.

(** [n.append(e)] on a local that holds a list. *)
Definition append (n : string) (e : M value) : M unit :=
  l <~ load n ;;
  v <~ e ;;
  match l with
  | VList items => store n (VList (items ++ [v]))
  | _ => raise (AttributeError "object has no attribute 'append'")
  end.

(** [n[i] = e]: the right-hand side first. *)
Definition setitem (n : string) (i e : M value) : M unit :=
  v <~ e ;;
  a <~ load n ;;
  vi <~ i ;;
  a' <~ lift (ext "setitem" [a; vi; v]) ;;
  store n a'.

(** [n += e] *)
Definition iadd (n : string) (e : M value) : M unit :=
  a <~ load n ;;
  v <~ e ;;
  a' <~ lift (ext "iadd" [a; v]) ;;
  store n a'.

(** [n1, ..., nk = e] *)
Fixpoint store_all (ns : list string) (vs : list value) : M unit :=
  match ns, vs with
  | [], [] => ret tt
  | n :: ns', v :: vs' => store n v ;;; store_all ns' vs'
  | _, _ => raise (ValueError "wrong number of values to unpack")
  end.

Definition unpack (ns : list string) (e : M value) : M unit :=
  v <~ e ;; vs <~ lift (iter v) ;; store_all ns vs.

(** [for n in e: body] *)
Definition for_in (n : string) (e : M value) (body : M unit) : M unit :=
  v <~ e ;;
  items <~ lift (iter v) ;;
  for_each items (fun x => store n x ;;; body).

(** [log.level(msg)] *)
Definition log_call (level : string) (msg : M value) : M unit :=
  _ <~ load "log" ;; v <~ msg ;; emit level v.

Definition newaxis_all : M value := tuple [const VNone; const (VSlice None None)].
Definition sel_col (col : M value) : M value :=
  tuple [load "sel"; col; const VNone].
Definition sel_newaxis : M value := tuple [load "sel"; const VNone].

(** [range(spec_coeff.shape[1])] *)
Definition range_shape1 : M value :=
  call "range"
    [index (apply "shape" [load "spec_coeff"]) (const (VInt 1))].

(** *** The statements, by line *)

Definition line_201 : M unit :=
  _ <~ load "np" ;; a <~ load "radec" ;;
  u <~ lift (np_unique a) ;; store "uniq_radec" u.

Definition lines_202_208 : M unit :=
  store "ncomp_type" (VList []) ;;;
  store "nradec" (VList []) ;;;
  store "nstokes" (VList []) ;;;
  store "nspec_coef" (VList []) ;;;
  store "nref_freq" (VList []) ;;;
  store "nlog_spec_ind" (VList []) ;;;
  store "ngaussian_shape" (VList []).

Definition line_211 : M unit :=
  assign "deltasel"
    (apply "eq" [index (load "comp_type") (load "urd"); const (VStr "POINT")]).

Definition line_212 : M unit :=
  assign "polyspecsel"
    (method "np" "logical_not" [index (load "spec_coef") (load "urd")]).

Definition line_213 : M unit :=
  assign "sel" (apply "and" [load "deltasel"; load "polyspecsel"]).

Definition line_214 : M unit :=
  assign "Is"
    (apply "mul"
       [index (load "stokes") (sel_col (const (VInt 0)));
        apply "pow" [index (load "frequency") newaxis_all; const (VInt 0)]]).

Definition lines_215_216 : M unit :=
  for_in "jj" range_shape1
    (iadd "Is"
       (apply "mul"
          [index (load "spec_coeff") (sel_col (load "jj"));
           apply "pow"
             [apply "sub"
                [apply "truediv"
                   [index (load "frequency") newaxis_all;
                    index (load "ref_freq") sel_newaxis];
                 const (VInt 1)];
              apply "add" [load "jj"; const (VInt 1)]]])).

Definition line_217 : M unit :=
  assign "Is" (method "np" "sum" [load "Is"; const (VInt 0)]).

Definition line_218 : M unit :=
  assign "logpolyspecsel"
    (method "np" "logical_not" [index (load "log_spec_coef") (load "urd")]).

Definition line_219 : M unit :=
  assign "sel" (apply "and" [load "deltasel"; load "logpolyspecsel"]).

Definition line_221 : M unit :=
  assign "Is"
    (method "np" "log"
       [apply "mul"
          [index (load "stokes") (sel_col (const (VInt 0)));
           apply "pow"
             [index (load "frequency") newaxis_all; const (VInt 0)]]]).

Definition lines_222_223 : M unit :=
  for_in "jj" range_shape1
    (iadd "Is"
       (apply "mul"
          [index (load "spec_coeff") (sel_col (load "jj"));
           method "da" "log"
             [apply "pow"
                [apply "truediv"
                   [index (load "frequency") newaxis_all;
                    index (load "ref_freq") sel_newaxis];
                 apply "add" [load "jj"; const (VInt 1)]]]])).

Definition line_224 : M unit :=
  assign "Is" (method "np" "exp" [load "Is"]).

Definition line_225 : M unit :=
  assign "Islogpoly" (method "np" "sum" [load "Is"; const (VInt 0)]).

(** The [lambda] is built, not run, when the call is evaluated. *)
Definition lines_227_229 : M unit :=
  unpack ["popt"; "pfitvar"]
    (call "curve_fit"
       [const (VFun "<lambda>"); load "frequency";
        apply "add" [load "Ispoly"; load "Islogpoly"]]).

Definition lines_230_237 : M unit :=
  finite <~ method "np" "all" [method "np" "isfinite" [load "pfitvar"]] ;;
  ok <~ lift (truth finite) ;;
  if negb ok then
    setitem "popt" (const (VInt 0))
      (method "np" "sum"
         [index (load "stokes") (sel_col (const (VInt 0))); const (VInt 0)]) ;;;
    setitem "popt" (const (VSlice (Some 1%Z) None))
      (_ <~ load "np" ;; const (VFloat infinity)) ;;;
    log_call "warn"
      (apply "str.format"
         [const (VStr "Refitting at position {0:s} failed. Assuming flat spectrum source of {1:.2f} Jy");
          load "radec"; index (load "popt") (const (VInt 0))])
  else
    assign "pcov" (method "np" "sqrt" [method "np" "diag" [load "pfitvar"]]) ;;;
    log_call "info"
      (apply "str.format"
         [const (VStr "New fitted flux {0:.3f} Jy at position {1:s} with covariance {2:s}");
          index (load "popt") (const (VInt 0)); load "radec";
          apply "str.join"
            [const (VStr ", ");
             (p <~ load "popt" ;;
              items <~ lift (iter p) ;;
              strs <~ eval_all
                (List.map (fun x => call "str" [const x]) items) ;;
              ret (VList strs))]]).

Definition lines_239_244 : M unit :=
  append "ncomp_type" (const (VStr "POINT")) ;;;
  append "nradec" (load "urd") ;;;
  append "nstokes" (index (load "popt") (const (VInt 0))) ;;;
  append "nspec_coef" (index (load "popt") (const (VSlice (Some 1%Z) None))) ;;;
  append "nref_freq" (index (load "ref_freq") (const (VInt 0))) ;;;
  store "nlog_spec_ind" (VFloat 0%float).

(** The body of [for urd in uniq_radec]. *)
Definition loop_body : M unit :=
  line_211 ;;; line_212 ;;; line_213 ;;; line_214 ;;; lines_215_216 ;;;
  line_217 ;;; line_218 ;;; line_219 ;;; line_221 ;;; lines_222_223 ;;;
  line_224 ;;; line_225 ;;; lines_227_229 ;;; lines_230_237 ;;;
  lines_239_244.

Definition lines_210_244 : M unit :=
  for_in "urd" (load "uniq_radec") loop_body.

Definition line_247 : M unit :=
  assign "sel"
    (apply "eq"
       [index (load "comp_type") (load "radec"); const (VStr "GAUSSIAN")]).

Definition lines_248_260 : M unit :=
  rows <~ call "zip"
    [index (load "radec") (load "sel");
     index (load "stokes") (load "sel");
     index (load "spec_coef") (load "sel");
     index (load "ref_freq") (load "sel");
     index (load "log_spec_ind") (load "sel");
     index (load "gaussian_shape") (load "sel")] ;;
  items <~ lift (iter rows) ;;
  for_each items
    (fun row =>
       unpack ["rd"; "stks"; "spec"; "ref"; "lspec"; "gs"] (const row) ;;;
       append "ncomp_type" (const (VStr "GAUSSIAN")) ;;;
       append "nradec" (load "rd") ;;;
       append "nstokes" (load "stks") ;;;
       append "nspec_coef" (load "spec") ;;;
       append "nref_freq" (load "ref") ;;;
       append "nlog_spec_ind" (load "lspec") ;;;
       append "ngaussian_shape" (load "gs")).

Definition line_262 : M unit :=
  log_call "info"
    (apply "str.format"
       [const (VStr "Reduced {0:d} components to {1:d} components through by refitting");
        call "len" [load "comp_type"];
        call "len" [load "ncomp_type"]]).

Definition lines_263_265 : M value :=
  tuple
    [method "np" "array" [load "ncomp_type"];
     method "np" "array" [load "nradec"];
     method "np" "array" [load "nstokes"];
     method "np" "array" [load "nspec_coeff"];
     method "np" "array" [load "nref_freq"];
     method "np" "array" [load "nlog_spec_ind"];
     method "np" "array" [load "ngaussian_shape"]].

Definition body : M value :=
  line_201 ;;; lines_202_208 ;;; lines_210_244 ;;; line_247 ;;;
  lines_248_260 ;;; line_262 ;;; lines_263_265.

(** The arguments of the call on lines 270-277. *)
Record arguments : Type := {
  comp_type : value;
  radec : value;
  stokes : value;
  spec_coeff : value;
  ref_freq : value;
  log_spec_ind : value;
  gaussian_shape : value;
  frequencies : value
}.

Definition entry (a : arguments) : state :=
  {| locals :=
       <["comp_type" := comp_type a]>
       (<["radec" := radec a]>
       (<["stokes" := stokes a]>
       (<["spec_coeff" := spec_coeff a]>
       (<["ref_freq" := ref_freq a]>
       (<["log_spec_ind" := log_spec_ind a]>
       (<["gaussian_shape" := gaussian_shape a]>
       (<["frequencies" := frequencies a]> ∅)))))));
     logged := [] |}.

(** The call: the seven arrays it returns, or the exception it raises. *)
Definition __cluster (a : arguments) : result value :=
  match body (entry a) with
  | Ok (v, _) => Ok v
  | Raise e => Raise e
  end.
End Routine.

(** *** The component list the importer hands over *)

(** Modelled from the spec: the arrays [import_from_wsclean] returns
    ([Crystalball/wsclean.py] is not among the sources). The sky-model
    input is an ordered sequence of records with type, ra, dec, I, Q, U, V,
    spectral coefficients, reference frequency, log flag and the three
    Gaussian parameters (section 6), positions being in radians (section
    3); [predict] reads [radec] as an (N, 2) array, [stokes] as (N, 4),
    [gaussian_shape] as (N, 3), and the other arrays by row. *)
Record component : Type := {
  kind : string;                         (* "POINT" or "GAUSSIAN" *)
  position : float * float;              (* right ascension, declination *)
  flux : float * float * float * float;  (* I, Q, U, V *)
  coefficients : list float;
  reference : float;
  logarithmic : bool;
  gauss : float * float * float
}.

Definition floats (xs : list float) : value := VArray DFloat (List.map VFloat xs).

Definition arrays (cs : list component) (freqs : list float) : arguments :=
  {| comp_type := VArray DStr (List.map (fun c => VStr (kind c)) cs);
     radec :=
       VArray DFloat
         (List.map (fun c => let '(ra, dec) := position c in floats [ra; dec]) cs);
     stokes :=
       VArray DFloat
         (List.map (fun c => let '(i, q, u, v) := flux c in floats [i; q; u; v]) cs);
     spec_coeff :=
       VArray DFloat (List.map (fun c => floats (coefficients c)) cs);
     ref_freq := floats (List.map reference cs);
     log_spec_ind := VArray DBool (List.map (fun c => VBool (logarithmic c)) cs);
     gaussian_shape :=
       VArray DFloat
         (List.map (fun c => let '(a, b, pa) := gauss c in floats [a; b; pa]) cs);
     frequencies := floats freqs |}.

(** A point source of flat spectrum, referred to 1 GHz. *)
Definition point (ra dec i : float) : component :=
  {| kind := "POINT"; position := (ra, dec);
     flux := (i, 0%float, 0%float, 0%float);
     coefficients := [0%float; 0%float; 0%float];
     reference := 1e9%float; logarithmic := false;
     gauss := (0%float, 0%float, 0%float) |}.

(** A stand-in for the library functions, for running the routine on an
    example: every call returns [None]. *)
Definition returns_none : string -> list value -> result value :=
  fun _ _ => Ok VNone.

(** The state after [n = v]. *)
Definition set_local (n : string) (v : value) (st : state) : state :=
  {| locals := <[n := v]> (locals st); logged := logged st |}.

(** The state after lines 202-208. *)
Definition fresh_lists (st : state) : state :=
  set_local "ngaussian_shape" (VList [])
    (set_local "nlog_spec_ind" (VList [])
       (set_local "nref_freq" (VList [])
          (set_local "nspec_coef" (VList [])
             (set_local "nstokes" (VList [])
                (set_local "nradec" (VList [])
                   (set_local "ncomp_type" (VList []) st)))))).

(** A state in which lines 239-244 run: the lists of lines 202-208, a
    coordinate, a fit and a reference frequency; and the state they leave
    when every library call returns [None]. *)
Definition at_line_239 : state :=
  set_local "ref_freq" (floats [1e9%float])
    (set_local "popt" (floats [2%float; 0%float])
       (set_local "urd" (VFloat 0.5%float)
          (fresh_lists {| locals := ∅; logged := [] |}))).

Definition after_line_244 : state :=
  set_local "nlog_spec_ind" (VFloat 0%float)
    (set_local "nref_freq" (VList [VFloat 1e9%float])
       (set_local "nspec_coef" (VList [VNone])
          (set_local "nstokes" (VList [VFloat 2%float])
             (set_local "nradec" (VList [VFloat 0.5%float])
                (set_local "ncomp_type" (VList [VStr "POINT"])
                   at_line_239))))).

(** Lines 267-277: clustering runs unless [--dontcluster] is given. *)
Definition clustered (ext : string -> list value -> result value)
    (dontcluster : bool) (cs : list component) (freqs : list float)
  : result value :=
  if negb dontcluster then __cluster ext (arrays cs freqs)
  else
    let a := arrays cs freqs in
    Ok (VTuple [comp_type a; radec a; stokes a; spec_coeff a; ref_freq a;
                log_spec_ind a; gaussian_shape a]).

End Cluster.

(** ** [predict]: command line, support tables and loop *)

Module Predict.

(** *** The command line of [create_parser] *)

Inductive action : Type := store | store_true.

(** One [add_argument] call: the names, the action, the [type=], the
    default ([None] for [store] without a default, [False] for
    [store_true]) and the [choices=]. *)
Record argument : Type := {
  name_or_flags : list string;
  action_of : action;
  type_of : option string;
  default : Cluster.value;
  choices : list string
}.

Definition create_parser : list argument :=
  [ {| name_or_flags := ["ms"]; action_of := store; type_of := None;
       default := Cluster.VNone; choices := [] |};
    {| name_or_flags := ["-sm"; "--sky-model"]; action_of := store;
       type_of := None; default := Cluster.VStr "sky-model.txt";
       choices := [] |};
    {| name_or_flags := ["-o"; "--output-column"]; action_of := store;
       type_of := None; default := Cluster.VStr "MODEL_DATA";
       choices := [] |};
    {| name_or_flags := ["-rc"; "--row-chunks"]; action_of := store;
       type_of := Some "int"; default := Cluster.VInt 0; choices := [] |};
    {| name_or_flags := ["-mc"; "--model-chunks"]; action_of := store;
       type_of := Some "int"; default := Cluster.VInt 0; choices := [] |};
    {| name_or_flags := ["--exp-sign-convention"]; action_of := store;
       type_of := None; default := Cluster.VStr "casa";
       choices := ["casa"; "thompson"] |};
    {| name_or_flags := ["-sp"; "--spectra"]; action_of := store_true;
       type_of := None; default := Cluster.VBool false; choices := [] |};
    {| name_or_flags := ["-w"; "--within"]; action_of := store;
       type_of := Some "str"; default := Cluster.VNone; choices := [] |};
    {| name_or_flags := ["-po"; "--points-only"]; action_of := store_true;
       type_of := None; default := Cluster.VBool false; choices := [] |};
    {| name_or_flags := ["-ns"; "--num-sources"]; action_of := store;
       type_of := Some "int"; default := Cluster.VInt 0; choices := [] |};
    {| name_or_flags := ["-j"; "--num-workers"]; action_of := store;
       type_of := Some "int"; default := Cluster.VInt 0; choices := [] |};
    {| name_or_flags := ["-mf"; "--memory-fraction"]; action_of := store;
       type_of := Some "float"; default := Cluster.VFloat 0.5%float;
       choices := [] |};
    {| name_or_flags := ["-f"; "--fieldid"]; action_of := store;
       type_of := Some "int"; default := Cluster.VInt 0; choices := [] |};
    {| name_or_flags := ["-dc"; "--dontcluster"]; action_of := store_true;
       type_of := None; default := Cluster.VBool false; choices := [] |} ].

(** The attribute [argparse] stores an argument under: a positional
    argument under its name; an option under its first long option string
    (or, without one, its first option string), the leading dashes removed
    and the other dashes turned into underscores. *)
Definition is_option (s : string) : bool := String.prefix "-" s.
Definition is_long (s : string) : bool := String.prefix "--" s.

Fixpoint lstrip_dashes (s : string) : string :=
  match s with
  | String "-" s' => lstrip_dashes s'
  | _ => s
  end.

Fixpoint dashes_to_underscores (s : string) : string :=
  match s with
  | EmptyString => EmptyString
  | String c s' =>
      String (if Ascii.eqb c "-" then "_"%char else c)
             (dashes_to_underscores s')
  end.

Definition dest (a : argument) : string :=
  match name_or_flags a with
  | [] => EmptyString
  | first :: _ =>
      if is_option first then
        let option_string :=
          match List.filter is_long (name_or_flags a) with
          | long :: _ => long
          | [] => first
          end in
        dashes_to_underscores (lstrip_dashes option_string)
      else first
  end.

Definition dests : list string := List.map dest create_parser.

(** [args.n] on the namespace the parser returns. *)
Definition no_attribute (n : string) : exn :=
  AttributeError ("'Namespace' object has no attribute '" ++ n ++ "'").

Definition getattr (args : gmap string Cluster.value) (n : string)
  : result Cluster.value :=
  match args !! n with
  | Some v => Ok v
  | None => Raise (no_attribute n)
  end.

(** The namespace of a command line that gives the measurement set only. *)
Definition defaults (ms : string) : gmap string Cluster.value :=
  <["ms" := Cluster.VStr ms]>
    (list_to_map (List.map (fun a => (dest a, default a)) create_parser)).

(** [v == s] for a string literal [s]. *)
Definition eq_str (v : Cluster.value) (s : string) : bool :=
  match v with
  | Cluster.VStr x => String.eqb x s
  | _ => false
  end.

(** *** Lines 323-328: the sign of [uvw] *)

Section Sign.
(** [str(v)], for the message of line 328. *)
Variable str : Cluster.value -> string.

Definition lines_323_328 (args : gmap string Cluster.value) (uvw : list R)
  : result (list R) :=
  c <- getattr args "exp_sign_convention" ;;
  if eq_str c "casa" then Ok (List.map Ropp uvw)
  else
    c' <- getattr args "exp_sign_convention" ;;
    if eq_str c' "thompson" then Ok uvw
    else
      s <- getattr args "sign" ;;
      Raise (ValueError ("Invalid sign convention '" ++ str s ++ "'")).
End Sign.

(** *** Lines 288-293 and 361: Gaussian components *)

(** [np.count_nonzero] of an array of booleans. *)
Definition count_nonzero (bs : list bool) : Z :=
  Z.of_nat (List.length (List.filter (fun b => b) bs)).

Definition gaussian_components (comp_type : list string) : bool :=
  (count_nonzero (List.map (fun c => String.eqb c "GAUSSIAN") comp_type) >? 0)%Z.

(** Line 361, for one row and one channel: [phase] and the shape factor
    [gaussian(uvw, frequency, gaussian_shape)], by source. *)
Fixpoint times (xs ys : list R) : list R :=
  match xs, ys with
  | x :: xs', y :: ys' => (x * y)%R :: times xs' ys'
  | _, _ => []
  end.

Definition line_361 (comp_type : list string) (phase shape : list R)
  : list R :=
  if gaussian_components comp_type then times phase shape else phase.

(** *** [support_tables] *)

Section Tables.
(** A table read into memory. *)
Variable D : Type.
(** [[ds.compute() for ds in xds_from_table(name, group_cols="__row__")]] *)
Variable xds_from_table : string -> result D.

(** The dictionary comprehension: the tables in order, a later one of the
    same name replacing an earlier one. *)
Fixpoint support_tables_from (table_map : gmap string D) (ms : string)
    (tables : list string) : result (gmap string D) :=
  match tables with
  | [] => Ok table_map
  | t :: tables' =>
      d <- xds_from_table (ms ++ "::" ++ t) ;;
      support_tables_from (<[t := d]> table_map) ms tables'
  end.

Definition support_tables (ms : string) (tables : list string)
  : result (gmap string D) :=
  support_tables_from ∅ ms tables.
End Tables.

(** *** Lines 301-391: the loop over the datasets *)

(** The group columns of a dataset of [xds_from_ms]. *)
Record dataset : Type := { FIELD_ID : Z; DATA_DESC_ID : Z }.

Section Loop.
(** A write to the table. *)
Variable W : Type.
(** Lines 311-389 on one dataset: the write they build, or the exception
    they raise. *)
Variable graph : dataset -> result W.

Fixpoint lines_301_391 (fieldid : Z) (datasets : list dataset)
    (writes : list W) : result (list W) :=
  match datasets with
  | [] => Ok writes
  | xds :: datasets' =>
      if negb (FIELD_ID xds =? fieldid)%Z
      then lines_301_391 fieldid datasets' writes          (* continue *)
      else
        write <- graph xds ;;
        lines_301_391 fieldid datasets' (writes ++ [write])
  end.

(** The writes of a list of datasets, one after the other. *)
Fixpoint graphs (datasets : list dataset) : result (list W) :=
  match datasets with
  | [] => Ok []
  | xds :: datasets' =>
      write <- graph xds ;;
      writes <- graphs datasets' ;;
      Ok (write :: writes)
  end.
End Loop.

(** *** Lines 386-388: the shape of the visibilities *)

Definition size (shape : list Z) : Z := List.fold_right Z.mul 1%Z shape.

(** [a.reshape(new)] on an array of shape [old]. *)
Definition reshape (old new : list Z) : result (list Z) :=
  if (size old =? size new)%Z then Ok new
  else Raise (ValueError "cannot reshape array").

Definition lines_387_388 (corrs : Z) (vis_shape : list Z)
  : result (list Z) :=
  if (corrs =? 4)%Z then reshape vis_shape (List.firstn 2 vis_shape ++ [4%Z])
  else Ok vis_shape.

End Predict.

(** * Properties *)

(** ** Correlation schema and contraction pattern *)

Section SchemaFacts.
Import Schema.

Lemma corr_schema_invalid (p : pol) :
  NUM_CORR p <> 1 -> NUM_CORR p <> 2 -> NUM_CORR p <> 4 ->
  corr_schema p = Raise (corrs_not_in (NUM_CORR p)).
Proof.
  intros H1 H2 H4. unfold corr_schema.
  destruct (Z.eqb_spec (NUM_CORR p) 4); [contradiction|].
  destruct (Z.eqb_spec (NUM_CORR p) 2); [contradiction|].
  destruct (Z.eqb_spec (NUM_CORR p) 1); [contradiction|].
  reflexivity.
Qed.

Lemma einsum_schema_invalid (p : pol) (dospec : bool) :
  NUM_CORR p <> 1 -> NUM_CORR p <> 2 -> NUM_CORR p <> 4 ->
  einsum_schema p dospec = Raise (corrs_not_in (NUM_CORR p)).
Proof.
  intros H1 H2 H4. unfold einsum_schema.
  destruct (Z.eqb_spec (NUM_CORR p) 4); [contradiction|].
  destruct (Z.eqb_spec (NUM_CORR p) 2); [contradiction|].
  destruct (Z.eqb_spec (NUM_CORR p) 1); [contradiction|].
  reflexivity.
Qed.

Lemma corr_schema_shape (p : pol) :
  Z.of_nat (List.length (CORR_TYPE p)) = NUM_CORR p ->
  (NUM_CORR p = 1 -> exists s, corr_schema p = Ok s /\ shape s = [1%nat]) /\
  (NUM_CORR p = 2 -> exists s, corr_schema p = Ok s /\ shape s = [2%nat]) /\
  (NUM_CORR p = 4 ->
   exists s, corr_schema p = Ok s /\ shape s = [2%nat; 2%nat]).
Proof.
  intros Hlen. unfold corr_schema.
  destruct p as [n l]; simpl in *.
  repeat split; intros ->;
    repeat (destruct l as [|? l]; simpl in Hlen; try lia);
    simpl; eexists; split; reflexivity.
Qed.
End SchemaFacts.

(** C8. A correlation count other than 1, 2 and 4 makes both
    [corr_schema] and [einsum_schema] raise [ValueError], whatever the
    correlation types and the spectral flag are: no layout is chosen. For
    the counts 1, 2 and 4, with as many correlation types as the count says,
    [corr_schema] returns a literal of shape (1,), (2,) and (2, 2). *)
Theorem corr_count_other_than_1_2_4_raises
    (p : Schema.pol) (dospec : bool) :
  (Schema.NUM_CORR p <> 1 -> Schema.NUM_CORR p <> 2 ->
   Schema.NUM_CORR p <> 4 ->
   Schema.corr_schema p
     = Raise (ValueError
                ("corrs " ++ fmt_d (Schema.NUM_CORR p) ++ " not in (1, 2, 4)"))
   /\ Schema.einsum_schema p dospec
     = Raise (ValueError
                ("corrs " ++ fmt_d (Schema.NUM_CORR p) ++ " not in (1, 2, 4)")))
  /\
  (Z.of_nat (List.length (Schema.CORR_TYPE p)) = Schema.NUM_CORR p ->
   (Schema.NUM_CORR p = 1 ->
    exists s, Schema.corr_schema p = Ok s /\ Schema.shape s = [1%nat]) /\
   (Schema.NUM_CORR p = 2 ->
    exists s, Schema.corr_schema p = Ok s /\ Schema.shape s = [2%nat]) /\
   (Schema.NUM_CORR p = 4 ->
    exists s, Schema.corr_schema p = Ok s
              /\ Schema.shape s = [2%nat; 2%nat])).
Proof.
  split.
  - intros H1 H2 H4. split.
    + now apply corr_schema_invalid.
    + now apply einsum_schema_invalid.
  - apply corr_schema_shape.
Qed.

(** The theorem at the counts 3, 1, 2 and 4. *)
Lemma corr_count_other_than_1_2_4_raises_witness :
  (Schema.corr_schema {| Schema.NUM_CORR := 3; Schema.CORR_TYPE := [9; 10; 11] |}
     = Raise (ValueError "corrs 3 not in (1, 2, 4)")
   /\ Schema.einsum_schema
        {| Schema.NUM_CORR := 3; Schema.CORR_TYPE := [9; 10; 11] |} true
     = Raise (ValueError "corrs 3 not in (1, 2, 4)"))
  /\ (exists s,
        Schema.corr_schema {| Schema.NUM_CORR := 1; Schema.CORR_TYPE := [9] |}
          = Ok s /\ Schema.shape s = [1%nat])
  /\ (exists s,
        Schema.corr_schema {| Schema.NUM_CORR := 2; Schema.CORR_TYPE := [9; 12] |}
          = Ok s /\ Schema.shape s = [2%nat])
  /\ (exists s,
        Schema.corr_schema
          {| Schema.NUM_CORR := 4; Schema.CORR_TYPE := [9; 10; 11; 12] |}
          = Ok s /\ Schema.shape s = [2%nat; 2%nat]).
Proof.
  split; [|split; [|split]].
  - apply (proj1 (corr_count_other_than_1_2_4_raises
                    {| Schema.NUM_CORR := 3; Schema.CORR_TYPE := [9; 10; 11] |}
                    true)); simpl; lia.
  - apply (proj1 (proj2 (corr_count_other_than_1_2_4_raises
                    {| Schema.NUM_CORR := 1; Schema.CORR_TYPE := [9] |}
                    true) eq_refl)); reflexivity.
  - apply (proj1 (proj2 (proj2 (corr_count_other_than_1_2_4_raises
                    {| Schema.NUM_CORR := 2; Schema.CORR_TYPE := [9; 12] |}
                    true) eq_refl))); reflexivity.
  - apply (proj2 (proj2 (proj2 (corr_count_other_than_1_2_4_raises
                    {| Schema.NUM_CORR := 4; Schema.CORR_TYPE := [9; 10; 11; 12] |}
                    true) eq_refl))); reflexivity.
Defined.


(** C2, as stated, fails: with four correlations and the spectral model on,
    the pattern is ["srf, sfij -> srfij"]; the source label [s] is an axis of
    its result and no label is summed over. *)
Lemma einsum_pattern_keeps_source_axis :
  exists s p,
    Schema.einsum_schema
      {| Schema.NUM_CORR := 4; Schema.CORR_TYPE := [9; 10; 11; 12] |} true
      = Ok s
    /\ Schema.parse s = Some p
    /\ Schema.output p = ["s"; "r"; "f"; "i"; "j"]%char
    /\ Schema.summed p = []
    /\ ~ Schema.collapses_source p.
Proof.
  eexists. eexists. split; [reflexivity|]. split; [reflexivity|].
  split; [reflexivity|]. split; [reflexivity|].
  intros [H _]. exact H.
Qed.

(** C2, amended. For every correlation count in {1, 2, 4} and either value
    of the spectral flag, the pattern the engine selects labels the phase
    [srf] and starts the brightness with [s]; its result has the axes
    source, row, frequency and the correlation axes of the brightness, in
    this order; it sums over no label. Each element of the result is the
    product of the phase and the brightness of the same source: the source
    axis is kept, in the same way by all four patterns. *)
Theorem einsum_pattern_keeps_every_axis
    (p : Schema.pol) (dospec : bool) :
  Schema.NUM_CORR p = 1 \/ Schema.NUM_CORR p = 2 \/ Schema.NUM_CORR p = 4 ->
  exists s pat sb,
    Schema.einsum_schema p dospec = Ok s
    /\ Schema.parse s = Some pat
    /\ Schema.operands pat = [ ["s"; "r"; "f"]%char; "s"%char :: sb ]
    /\ Schema.output pat = (["s"; "r"; "f"]%char ++ Schema.corr_axes sb)%list
    /\ Schema.summed pat = []
    /\ ~ Schema.collapses_source pat
    /\ forall (V : Type) (vzero : V) (vadd vmul : V -> V -> V)
              (dims : Schema.env) (phase brightness : list nat -> V)
              (src row chan : nat) (corr : list nat),
         List.length corr = List.length (Schema.corr_axes sb) ->
         Schema.einsum V vzero vadd vmul pat dims phase brightness
           (src :: row :: chan :: corr)
         = vmul (phase [src; row; chan])
                (brightness
                   (src :: (if dospec then [chan] else []) ++ corr)%list).
Proof.
  intros [H | [H | H]]; destruct dospec; unfold Schema.einsum_schema;
    rewrite H; simpl;
    eexists; eexists; eexists;
    (split; [reflexivity|]); (split; [reflexivity|]);
    (split; [reflexivity|]); (split; [reflexivity|]);
    (split; [reflexivity|]);
    (split; [intros [[] _]|]);
    intros V vzero vadd vmul dims phase brightness src row chan corr Hlen;
    repeat (destruct corr as [|? corr]; simpl in Hlen; try discriminate);
    reflexivity.
Qed.

(** The theorem at two correlations, flat spectra. *)
Lemma einsum_pattern_keeps_every_axis_witness :
  exists s pat sb,
    Schema.einsum_schema
      {| Schema.NUM_CORR := 2; Schema.CORR_TYPE := [9; 12] |} false = Ok s
    /\ Schema.parse s = Some pat
    /\ Schema.operands pat = [ ["s"; "r"; "f"]%char; "s"%char :: sb ]
    /\ Schema.output pat = (["s"; "r"; "f"]%char ++ Schema.corr_axes sb)%list
    /\ Schema.summed pat = []
    /\ ~ Schema.collapses_source pat
    /\ forall (V : Type) (vzero : V) (vadd vmul : V -> V -> V)
              (dims : Schema.env) (phase brightness : list nat -> V)
              (src row chan : nat) (corr : list nat),
         List.length corr = List.length (Schema.corr_axes sb) ->
         Schema.einsum V vzero vadd vmul pat dims phase brightness
           (src :: row :: chan :: corr)
         = vmul (phase [src; row; chan]) (brightness (src :: [] ++ corr)%list).
Proof.
  apply (einsum_pattern_keeps_every_axis
           {| Schema.NUM_CORR := 2; Schema.CORR_TYPE := [9; 12] |} false).
  simpl. right. left. reflexivity.
Defined.

(** ** The clustering routine *)

Section ClusterFacts.
Import Cluster.
Variable ext : string -> list value -> result value.

Lemma bind_ok {A B : Type} (m : M A) (k : A -> M B) st a st' :
  m st = Ok (a, st') -> bind m k st = k a st'.
Proof. intros H. unfold bind. now rewrite H. Qed.

Lemma bind_raise {A B : Type} (m : M A) (k : A -> M B) st e :
  m st = Raise e -> bind m k st = Raise e.
Proof. intros H. unfold bind. now rewrite H. Qed.

Lemma load_local (n : string) st v :
  bool_decide (n ∈ cluster_locals) = true ->
  locals st !! n = Some v -> load n st = Ok (v, st).
Proof. intros Hn Hv. unfold load. now rewrite Hn, Hv. Qed.

Lemma load_np st : load "np" st = Ok (VFun "np", st).
Proof. reflexivity. Qed.

Lemma flatten_radec (cs : list component) :
  all_floats
    (flat_map flatten
       (List.map (fun c => let '(ra, dec) := position c in floats [ra; dec]) cs))
  = Some (flat_map (fun c => [fst (position c); snd (position c)]) cs).
Proof.
  induction cs as [|c cs IH]; [reflexivity|].
  cbn [List.map flat_map]. destruct (position c) as [ra dec].
  cbn. cbn in IH. rewrite IH. reflexivity.
Qed.

Lemma insert_uniq_cons (x : float) (l : list float) :
  exists y ys, Numpy.insert_uniq float PrimFloat.leb x l = y :: ys.
Proof.
  destruct l as [|z l]; cbn; [eauto|].
  destruct (PrimFloat.leb x z); [destruct (PrimFloat.leb z x)|]; eauto.
Qed.

Lemma np_unique_radec (c : component) (cs : list component) (fr : list float) :
  exists y ys,
    np_unique ext (radec (arrays (c :: cs) fr))
    = Ok (VArray DFloat (VFloat y :: List.map VFloat ys)).
Proof.
  unfold np_unique, arrays, radec.
  cbn [flatten]. rewrite flatten_radec.
  cbn [flat_map app Numpy.unique fold_right].
  destruct (insert_uniq_cons (fst (position c))
             (Numpy.insert_uniq float PrimFloat.leb (snd (position c))
                (fold_right (Numpy.insert_uniq float PrimFloat.leb) []
                   (flat_map (fun c0 => [fst (position c0); snd (position c0)]) cs))))
    as [y [ys E]].
  exists y, ys. cbn. cbn in E. rewrite E. reflexivity.
Qed.

Lemma line_211_raises st dt items y :
  locals st !! "comp_type" = Some (VArray dt items) ->
  locals st !! "urd" = Some (VFloat y) ->
  line_211 ext st = Raise index_error_scalar.
Proof.
  intros Hc Hu. unfold line_211, assign.
  apply bind_raise. unfold apply. apply bind_raise.
  cbn [eval_all]. apply bind_raise. unfold index.
  rewrite (bind_ok _ _ st (VArray dt items) st)
    by (apply load_local; [reflexivity | exact Hc]).
  rewrite (bind_ok _ _ st (VFloat y) st)
    by (apply load_local; [reflexivity | exact Hu]).
  reflexivity.
Qed.

Lemma store_ok n v st : store n v st = Ok (tt, set_local n v st).
Proof. reflexivity. Qed.

Lemma loop_raises st dt items y rest :
  locals st !! "uniq_radec" = Some (VArray DFloat (VFloat y :: rest)) ->
  locals st !! "comp_type" = Some (VArray dt items) ->
  lines_210_244 ext st = Raise index_error_scalar.
Proof.
  intros Hu Hc. unfold lines_210_244, for_in.
  rewrite (bind_ok _ _ st (VArray DFloat (VFloat y :: rest)) st)
    by (apply load_local; [reflexivity | exact Hu]).
  rewrite (bind_ok _ _ st (VFloat y :: rest) st) by reflexivity.
  cbn [for_each]. apply bind_raise.
  rewrite (bind_ok _ _ _ _ _ (store_ok _ _ _)).
  unfold loop_body. apply bind_raise.
  apply (line_211_raises _ dt items y).
  - unfold set_local; cbn [locals].
    rewrite lookup_insert_ne by discriminate. exact Hc.
  - unfold set_local; cbn [locals]. apply lookup_insert_eq.
Qed.

Lemma line_201_ok (a : arguments) (u : value) :
  np_unique ext (radec a) = Ok u ->
  line_201 ext (entry a) = Ok (tt, set_local "uniq_radec" u (entry a)).
Proof.
  intros Hu. unfold line_201.
  rewrite (bind_ok _ _ _ _ _ (load_np _)).
  rewrite (bind_ok _ _ (entry a) (radec a) (entry a))
    by (apply load_local; reflexivity).
  rewrite (bind_ok _ _ (entry a) u (entry a))
    by (unfold lift; now rewrite Hu).
  reflexivity.
Qed.

Lemma lines_202_208_ok st : lines_202_208 st = Ok (tt, fresh_lists st).
Proof. reflexivity. Qed.

Lemma cluster_raises (a : arguments) dt items y rest :
  comp_type a = VArray dt items ->
  np_unique ext (radec a) = Ok (VArray DFloat (VFloat y :: rest)) ->
  __cluster ext a = Raise index_error_scalar.
Proof.
  intros Hc Hu. unfold __cluster, body.
  rewrite (bind_ok _ _ _ _ _ (line_201_ok a _ Hu)).
  rewrite (bind_ok _ _ _ _ _ (lines_202_208_ok _)).
  rewrite (bind_raise _ _ _ index_error_scalar); [reflexivity|].
  apply (loop_raises _ dt items y rest).
  - unfold fresh_lists, set_local; cbn [locals].
    rewrite !lookup_insert_ne by discriminate. apply lookup_insert_eq.
  - unfold fresh_lists, set_local, entry; cbn [locals].
    rewrite !lookup_insert_ne by discriminate.
    rewrite lookup_insert_eq. now rewrite Hc.
Qed.

Lemma cluster_raises_nonempty (c : component) (cs : list component) (fr : list float) :
  __cluster ext (arrays (c :: cs) fr) = Raise index_error_scalar.
Proof.
  destruct (np_unique_radec c cs fr) as [y [ys Hu]].
  eapply cluster_raises; [reflexivity | exact Hu].
Qed.
Lemma cluster_raises_empty (fr : list float) :
  __cluster ext (arrays [] fr) = Raise index_error_array.
Proof. reflexivity. Qed.

Lemma line_212_raises st :
  line_212 ext st = Raise (NameError "spec_coef").
Proof.
  unfold line_212, assign. apply bind_raise. unfold method, call_through.
  rewrite (bind_ok _ _ _ _ _ (load_np _)).
  apply bind_raise. cbn [eval_all]. apply bind_raise.
  unfold index. apply bind_raise. reflexivity.
Qed.
Lemma cluster_never_returns (cs : list component) (fr : list float) :
  is_ok (__cluster ext (arrays cs fr)) = false.
Proof.
  destruct cs as [|c cs].
  - now rewrite cluster_raises_empty.
  - now rewrite cluster_raises_nonempty.
Qed.

Lemma const_ok v st : const v st = Ok (v, st).
Proof. reflexivity. Qed.

Lemma eval_all_nil st : eval_all [] st = Ok ([], st).
Proof. reflexivity. Qed.

Lemma eval_all_cons (e : M value) (es : list (M value)) st v vs :
  e st = Ok (v, st) -> eval_all es st = Ok (vs, st) ->
  eval_all (e :: es) st = Ok (v :: vs, st).
Proof.
  intros H1 H2. cbn [eval_all].
  rewrite (bind_ok _ _ _ _ _ H1), (bind_ok _ _ _ _ _ H2). reflexivity.
Qed.

Lemma tuple_ok (es : list (M value)) st vs :
  eval_all es st = Ok (vs, st) -> tuple es st = Ok (VTuple vs, st).
Proof. intros H. unfold tuple. now rewrite (bind_ok _ _ _ _ _ H). Qed.

Lemma index_ok (a i : M value) st va vi v :
  a st = Ok (va, st) -> i st = Ok (vi, st) -> getitem ext va vi = Ok v ->
  index ext a i st = Ok (v, st).
Proof.
  intros Ha Hi Hv. unfold index.
  rewrite (bind_ok _ _ _ _ _ Ha), (bind_ok _ _ _ _ _ Hi).
  unfold lift. now rewrite Hv.
Qed.

Lemma apply_ok (op : string) (args : list (M value)) st vs v :
  eval_all args st = Ok (vs, st) -> ext op vs = Ok v ->
  apply ext op args st = Ok (v, st).
Proof.
  intros Ha Hv. unfold apply. rewrite (bind_ok _ _ _ _ _ Ha).
  unfold lift. now rewrite Hv.
Qed.

Lemma call_through_ok (n f : string) (args : list (M value)) st g vs v :
  load n st = Ok (g, st) -> eval_all args st = Ok (vs, st) ->
  ext f vs = Ok v ->
  call_through ext n f args st = Ok (v, st).
Proof.
  intros Hn Ha Hv. unfold call_through.
  rewrite (bind_ok _ _ _ _ _ Hn), (bind_ok _ _ _ _ _ Ha).
  unfold lift. now rewrite Hv.
Qed.

Lemma setitem_ok (n : string) (i e : M value) st v a vi a' :
  e st = Ok (v, st) -> load n st = Ok (a, st) -> i st = Ok (vi, st) ->
  ext "setitem" [a; vi; v] = Ok a' ->
  setitem ext n i e st = Ok (tt, set_local n a' st).
Proof.
  intros He Hn Hi Hs. unfold setitem.
  rewrite (bind_ok _ _ _ _ _ He), (bind_ok _ _ _ _ _ Hn),
    (bind_ok _ _ _ _ _ Hi).
  rewrite (bind_ok _ _ st a' st) by (unfold lift; now rewrite Hs).
  reflexivity.
Qed.

Lemma log_call_ok (level : string) (msg : M value) st v :
  msg st = Ok (v, st) ->
  log_call level msg st
  = Ok (tt, {| locals := locals st; logged := logged st ++ [(level, v)] |}).
Proof.
  intros Hm. unfold log_call.
  rewrite (bind_ok _ _ st (VFun "log") st) by reflexivity.
  now rewrite (bind_ok _ _ _ _ _ Hm).
Qed.

Lemma load_set_local_eq n v st :
  bool_decide (n ∈ cluster_locals) = true ->
  load n (set_local n v st) = Ok (v, set_local n v st).
Proof.
  intros Hn. apply load_local; [exact Hn|]. apply lookup_insert_eq.
Qed.

Lemma load_set_local_ne n m v w st :
  bool_decide (m ∈ cluster_locals) = true -> n <> m ->
  locals st !! m = Some w ->
  load m (set_local n v st) = Ok (w, set_local n v st).
Proof.
  intros Hm Hne Hw. apply load_local; [exact Hm|].
  unfold set_local; cbn [locals]. now rewrite lookup_insert_ne.
Qed.

(** Lines 230-233 where they are reached with [pfitvar] not all finite:
    the constant coefficient becomes the sum of [stokes[sel, 0]], the
    coefficients from the second on become infinite, and a warning goes to
    the logger; nothing is raised. *)
Lemma fallback_branch st pfitvar popt stokes sel radec finite picked total
    popt1 popt2 a0 msg :
  locals st !! "pfitvar" = Some pfitvar ->
  locals st !! "popt" = Some popt ->
  locals st !! "stokes" = Some stokes ->
  locals st !! "sel" = Some sel ->
  locals st !! "radec" = Some radec ->
  ext "np.isfinite" [pfitvar] = Ok finite ->
  ext "np.all" [finite] = Ok (VBool false) ->
  getitem ext stokes (VTuple [sel; VInt 0; VNone]) = Ok picked ->
  ext "np.sum" [picked; VInt 0] = Ok total ->
  ext "setitem" [popt; VInt 0; total] = Ok popt1 ->
  ext "setitem" [popt1; VSlice (Some 1%Z) None; VFloat infinity] = Ok popt2 ->
  getitem ext popt2 (VInt 0) = Ok a0 ->
  ext "str.format"
    [VStr "Refitting at position {0:s} failed. Assuming flat spectrum source of {1:.2f} Jy";
     radec; a0] = Ok msg ->
  lines_230_237 ext st
  = Ok (tt, {| locals := <["popt" := popt2]> (<["popt" := popt1]> (locals st));
               logged := logged st ++ [("warn", msg)] |}).
Proof.
  intros Hpf Hpo Hst Hsel Hrd Hfin Hall Hpick Hsum Hset1 Hset2 Ha0 Hmsg.
  unfold lines_230_237.
  rewrite (bind_ok _ _ st (VBool false) st).
  2:{ eapply call_through_ok; [apply load_np | | exact Hall].
      apply eval_all_cons; [|apply eval_all_nil].
      eapply call_through_ok; [apply load_np | | exact Hfin].
      apply eval_all_cons; [|apply eval_all_nil].
      apply load_local; [reflexivity | exact Hpf]. }
  rewrite (bind_ok _ _ st false st) by reflexivity.
  cbn [negb].
  rewrite (bind_ok _ _ st tt (set_local "popt" popt1 st)).
  2:{ eapply setitem_ok; [ | apply load_local; [reflexivity | exact Hpo]
                         | apply const_ok | exact Hset1].
      eapply call_through_ok; [apply load_np | | exact Hsum].
      apply eval_all_cons; [|apply eval_all_cons; [apply const_ok | apply eval_all_nil]].
      eapply index_ok; [apply load_local; [reflexivity | exact Hst] | | exact Hpick].
      apply tuple_ok. apply eval_all_cons; [apply load_local; [reflexivity | exact Hsel]|].
      apply eval_all_cons; [apply const_ok|].
      apply eval_all_cons; [apply const_ok | apply eval_all_nil]. }
  rewrite (bind_ok _ _ _ tt (set_local "popt" popt2 (set_local "popt" popt1 st))).
  2:{ eapply setitem_ok; [ | apply load_set_local_eq; reflexivity
                         | apply const_ok | exact Hset2].
      rewrite (bind_ok _ _ _ _ _ (load_np _)). reflexivity. }
  erewrite log_call_ok; [reflexivity|].
  eapply apply_ok; [|exact Hmsg].
  apply eval_all_cons; [apply const_ok|].
  apply eval_all_cons.
  { apply load_local; [reflexivity|]. unfold set_local; cbn [locals].
    rewrite !lookup_insert_ne by discriminate. exact Hrd. }
  apply eval_all_cons; [|apply eval_all_nil].
  eapply index_ok; [apply load_set_local_eq; reflexivity | apply const_ok | exact Ha0].
Qed.
End ClusterFacts.

(** C10, as stated, fails in the kind of the error: on the list of one point
    source at (0.5, 0.25) the call raises [IndexError], whatever the library
    functions return, and an [IndexError] is no unbound-name error. The
    statement that raises is the first of the loop body, line 211, which
    indexes [comp_type] with the float [urd]; the unbound name [spec_coef]
    is read one line later. *)
Lemma cluster_one_point_raises_index_error :
  (forall ext,
     Cluster.clustered ext false
       [Cluster.point 0.5%float 0.25%float 2%float] [1e9%float]
     = Raise (IndexError
         "only integers, slices (`:`), ellipsis (`...`), numpy.newaxis (`None`) and integer or boolean arrays are valid indices"))
  /\ (forall msg name, IndexError msg <> NameError name).
Proof.
  split.
  - intros ext. apply cluster_raises_nonempty.
  - intros msg name H. discriminate H.
Qed.

(** C10, amended. For every non-empty component list processed with
    clustering enabled, the routine raises on the very first unique
    coordinate and returns no clustered result: line 211 indexes
    [comp_type] with a float, an [IndexError]. The names [spec_coef],
    [frequency], [log_spec_coef] and [Ispoly] that the following lines read
    are bound in no scope: reading any of them raises the unbound-name error
    in every state, and so does line 212 as a whole. *)
Theorem cluster_raises_on_every_component_list
    (ext : string -> list Cluster.value -> result Cluster.value)
    (cs : list Cluster.component) (freqs : list float) :
  cs <> [] ->
  Cluster.clustered ext false cs freqs = Raise Cluster.index_error_scalar
  /\ is_ok (Cluster.clustered ext false cs freqs) = false
  /\ (forall st, Cluster.line_212 ext st = Raise (NameError "spec_coef"))
  /\ (forall st, Cluster.load "spec_coef" st = Raise (NameError "spec_coef"))
  /\ (forall st, Cluster.load "frequency" st = Raise (NameError "frequency"))
  /\ (forall st,
        Cluster.load "log_spec_coef" st = Raise (NameError "log_spec_coef"))
  /\ (forall st, Cluster.load "Ispoly" st = Raise (NameError "Ispoly")).
Proof.
  intros Hne. destruct cs as [|c cs]; [contradiction|].
  assert (H : Cluster.clustered ext false (c :: cs) freqs
              = Raise Cluster.index_error_scalar)
    by apply cluster_raises_nonempty.
  split; [exact H|]. split; [now rewrite H|].
  split; [apply line_212_raises|].
  repeat split; intros st; reflexivity.
Qed.

(** The theorem on one point source. *)
Lemma cluster_raises_on_every_component_list_witness :
  Cluster.clustered Cluster.returns_none false
    [Cluster.point 0.5%float 0.25%float 2%float] [1e9%float]
  = Raise Cluster.index_error_scalar
  /\ is_ok (Cluster.clustered Cluster.returns_none false
              [Cluster.point 0.5%float 0.25%float 2%float] [1e9%float])
     = false
  /\ (forall st,
        Cluster.line_212 Cluster.returns_none st
        = Raise (NameError "spec_coef"))
  /\ (forall st, Cluster.load "spec_coef" st = Raise (NameError "spec_coef"))
  /\ (forall st, Cluster.load "frequency" st = Raise (NameError "frequency"))
  /\ (forall st,
        Cluster.load "log_spec_coef" st = Raise (NameError "log_spec_coef"))
  /\ (forall st, Cluster.load "Ispoly" st = Raise (NameError "Ispoly")).
Proof.
  apply (cluster_raises_on_every_component_list Cluster.returns_none
           [Cluster.point 0.5%float 0.25%float 2%float] [1e9%float]).
  discriminate.
Defined.

(** C3: the code at two point sources at two distinct positions. The claim
    asks for two entries; the call raises at line 211 and returns none,
    whatever the library functions return. The loop it enters runs over the
    four distinct coordinates of the two positions, [np.unique] having
    flattened [radec]. *)
Theorem cluster_two_positions_returns_nothing
    (ext : string -> list Cluster.value -> result Cluster.value) :
  Cluster.clustered ext false
    [Cluster.point 0.5%float 0.25%float 2%float;
     Cluster.point 1.5%float (-0.75)%float 3%float]
    [1e9%float; 1.1e9%float]
  = Raise Cluster.index_error_scalar
  /\ Cluster.np_unique ext
       (Cluster.radec
          (Cluster.arrays
             [Cluster.point 0.5%float 0.25%float 2%float;
              Cluster.point 1.5%float (-0.75)%float 3%float]
             [1e9%float; 1.1e9%float]))
     = Ok (Cluster.floats [(-0.75)%float; 0.25%float; 0.5%float; 1.5%float]).
Proof.
  split.
  - apply cluster_raises_nonempty.
  - vm_compute. reflexivity.
Qed.

(** C4: the code at two point sources of flat spectrum, intensities 2 and 3,
    at one position. The claim asks for one entry of constant coefficient 5
    from the fallback; the call raises at line 211, on the first of the two
    coordinates of the position, before any refit, and no entry is emitted,
    whatever the library functions return. *)
Theorem cluster_flat_pair_never_reaches_the_refit
    (ext : string -> list Cluster.value -> result Cluster.value) :
  Cluster.clustered ext false
    [Cluster.point 0.5%float 0.25%float 2%float;
     Cluster.point 0.5%float 0.25%float 3%float]
    [1e9%float; 1.1e9%float]
  = Raise Cluster.index_error_scalar
  /\ Cluster.np_unique ext
       (Cluster.radec
          (Cluster.arrays
             [Cluster.point 0.5%float 0.25%float 2%float;
              Cluster.point 0.5%float 0.25%float 3%float]
             [1e9%float; 1.1e9%float]))
     = Ok (Cluster.floats [0.25%float; 0.5%float])
  /\ Cluster.line_211 ext
       (Cluster.set_local "urd" (Cluster.VFloat 0.25%float)
          (Cluster.fresh_lists
             (Cluster.set_local "uniq_radec"
                (Cluster.floats [0.25%float; 0.5%float])
                (Cluster.entry
                   (Cluster.arrays
                      [Cluster.point 0.5%float 0.25%float 2%float;
                       Cluster.point 0.5%float 0.25%float 3%float]
                      [1e9%float; 1.1e9%float])))))
     = Raise Cluster.index_error_scalar.
Proof.
  split; [|split].
  - apply cluster_raises_nonempty.
  - vm_compute. reflexivity.
  - eapply line_211_raises.
    + vm_compute. reflexivity.
    + vm_compute. reflexivity.
Qed.

(** ** The chunk budget *)

Section BudgetFacts.
Import Budget.
Local Open Scope R_scope.






Lemma dtype_name_valid (data_type : string) :
  data_type = "complex" \/ data_type = "dcomplex" ->
  exists name, dtype_name data_type = Ok name
               /\ (itemsize name = 8 \/ itemsize name = 16)%Z.
Proof.
  intros [-> | ->]; eexists; (split; [reflexivity|]); [left|right]; reflexivity.
Qed.

Lemma rdiv_ok (x y : R) : y <> 0 -> rdiv x y = Ok (x / y).
Proof. intros H. unfold rdiv. destruct (Req_dec_T y 0); [contradiction|reflexivity]. Qed.

Lemma truthy_zero : truthy 0 = false.
Proof. reflexivity. Qed.

Lemma truthy_nonzero (n : Z) : n <> 0%Z -> truthy n = true.
Proof. intros H. unfold truthy. destruct (Z.eqb_spec n 0); [contradiction|reflexivity]. Qed.

(** The automatic path returns, with the sizes spelt out. *)
Lemma auto_path (ps : psutil) (nr_sources nr_rows nr_chans nr_corrs : Z)
    (data_type name : string) (args : cb_args) (ff : R) (ratio : Z) :
  dtype_name data_type = Ok name ->
  model_chunks args = 0%Z -> row_chunks args = 0%Z ->
  0 <= IZR (virtual_memory_total ps) -> 0 <= memory_fraction args ->
  (0 < nr_chans * nr_corrs * itemsize name)%Z -> 0 < ff ->
  (0 < threads ps args)%Z -> (0 < ratio)%Z ->
  let mprs := IZR (nr_chans * nr_corrs * itemsize name) * ff in
  let allowed :=
    IZR (virtual_memory_total ps) * memory_fraction args / mprs
    / IZR (threads ps args) in
  let rows := np_int (Rmin (IZR nr_rows) (sqrt (allowed * IZR ratio))) in
  let sources := np_int (Rmin (IZR nr_sources) (IZR rows / IZR ratio)) in
  get_budget_locals ps nr_sources nr_rows nr_chans nr_corrs data_type args
    ff ratio
  = Ok {| rows_per_chunk := rows; sources_per_chunk := sources;
          memory_usage := IZR rows * IZR sources * mprs
                          * IZR (threads ps args) |}
  /\ 0 <= allowed * IZR ratio.
Proof.
  intros Hd Hm Hr Hmem Hmf Hb Hff Ht Hra. cbn zeta.
  assert (Hb' : 0 < IZR (nr_chans * nr_corrs * itemsize name))
    by (apply (IZR_lt 0); exact Hb).
  assert (Ht' : 0 < IZR (threads ps args)) by (apply (IZR_lt 0); exact Ht).
  assert (Hra' : 0 < IZR ratio) by (apply (IZR_lt 0); exact Hra).
  assert (Hmprs : 0 < IZR (nr_chans * nr_corrs * itemsize name) * ff)
    by (apply Rmult_lt_0_compat; assumption).
  assert (Hall : 0 <= IZR (virtual_memory_total ps) * memory_fraction args
                      / (IZR (nr_chans * nr_corrs * itemsize name) * ff)
                      / IZR (threads ps args) * IZR ratio).
  { apply Rmult_le_pos; [|lra].
    apply Rmult_le_pos; [|left; now apply Rinv_0_lt_compat].
    apply Rmult_le_pos; [|left; now apply Rinv_0_lt_compat].
    now apply Rmult_le_pos. }
  split; [|exact Hall].
  unfold get_budget_locals. rewrite Hd. cbn [rbind].
  rewrite Hm, Hr, truthy_zero. cbn [andb negb].
  rewrite rdiv_ok by lra. cbn [rbind].
  rewrite rdiv_ok by lra. cbn [rbind].
  unfold int_min_sqrt.
  destruct (Rlt_dec _ 0) as [Hneg|_]; [lra|]. cbn [rbind].
  rewrite rdiv_ok by lra. cbn [rbind]. reflexivity.
Qed.



(** Both chunk sizes given: they are returned as they are. *)
Lemma override_path (ps : psutil)
    (nr_sources nr_rows nr_chans nr_corrs : Z) (data_type : string)
    (args : cb_args) :
  data_type = "complex" \/ data_type = "dcomplex" ->
  model_chunks args <> 0%Z -> row_chunks args <> 0%Z ->
  get_budget ps nr_sources nr_rows nr_chans nr_corrs data_type args
  = Ok (row_chunks args, model_chunks args).
Proof.
  intros Hd Hm Hr. unfold get_budget, get_budget_locals.
  destruct (dtype_name_valid data_type Hd) as [name [-> _]].
  cbn [rbind]. rewrite !truthy_nonzero by assumption. reflexivity.
Qed.

(** One chunk size given, the other left at 0: the run exits. *)
Lemma partial_path (ps : psutil)
    (nr_sources nr_rows nr_chans nr_corrs : Z) (data_type : string)
    (args : cb_args) :
  data_type = "complex" \/ data_type = "dcomplex" ->
  (model_chunks args = 0%Z /\ row_chunks args <> 0%Z)
  \/ (model_chunks args <> 0%Z /\ row_chunks args = 0%Z) ->
  get_budget ps nr_sources nr_rows nr_chans nr_corrs data_type args
  = Raise (SystemExit 1).
Proof.
  intros Hd H. unfold get_budget, get_budget_locals.
  destruct (dtype_name_valid data_type Hd) as [name [-> _]].
  cbn [rbind].
  destruct H as [[-> Hr] | [Hm ->]].
  - rewrite truthy_zero, truthy_nonzero by assumption. reflexivity.
  - rewrite truthy_zero, truthy_nonzero by assumption. reflexivity.
Qed.
End BudgetFacts.

(** C5. In the automatic path (both chunk sizes left at 0), for positive
    numbers of sources, rows and channels, a correlation count of 1, 2 or 4,
    one of the two data types, a non-negative memory size and fraction, a
    positive thread count, fudge factor and row-to-source ratio,
    [get_budget] returns, and the memory usage it computes is exactly rows
    per chunk * sources per chunk * channels * correlations * bytes per
    element * fudge factor * threads. *)
Theorem auto_memory_usage_is_the_product
    (ps : Budget.psutil) (nr_sources nr_rows nr_chans nr_corrs : Z)
    (data_type : string) (args : Budget.cb_args)
    (fudge_factor : R) (row2source_ratio : Z) :
  (0 < nr_sources)%Z -> (0 < nr_rows)%Z -> (0 < nr_chans)%Z ->
  (nr_corrs = 1 \/ nr_corrs = 2 \/ nr_corrs = 4)%Z ->
  data_type = "complex" \/ data_type = "dcomplex" ->
  Budget.model_chunks args = 0%Z -> Budget.row_chunks args = 0%Z ->
  (0 <= Budget.virtual_memory_total ps)%Z ->
  (0 <= Budget.memory_fraction args)%R ->
  (0 < Budget.threads ps args)%Z ->
  (0 < fudge_factor)%R -> (0 < row2source_ratio)%Z ->
  exists l name,
    Budget.dtype_name data_type = Ok name
    /\ Budget.get_budget_locals ps nr_sources nr_rows nr_chans nr_corrs
         data_type args fudge_factor row2source_ratio = Ok l
    /\ (Budget.memory_usage l
        = IZR (Budget.rows_per_chunk l) * IZR (Budget.sources_per_chunk l)
          * IZR nr_chans * IZR nr_corrs * IZR (Budget.itemsize name)
          * fudge_factor * IZR (Budget.threads ps args))%R
    /\ (fudge_factor = 2%R -> row2source_ratio = 100%Z ->
        Budget.get_budget ps nr_sources nr_rows nr_chans nr_corrs
          data_type args
        = Ok (Budget.rows_per_chunk l, Budget.sources_per_chunk l)).
Proof.
  intros _ _ Hc Hk Hd Hm Hr Hmem Hmf Ht Hff Hra.
  destruct (dtype_name_valid data_type Hd) as [name [Hn Hsize]].
  destruct (auto_path ps nr_sources nr_rows nr_chans nr_corrs data_type name
              args fudge_factor row2source_ratio Hn Hm Hr) as [E _];
    try assumption;
    try (now apply (IZR_le 0));
    try (destruct Hk as [-> | [-> | ->]]; destruct Hsize as [-> | ->]; lia).
  cbn zeta in E.
  eexists. exists name. split; [exact Hn|].
  split; [exact E|]. split.
  - cbn [Budget.memory_usage Budget.rows_per_chunk Budget.sources_per_chunk].
    rewrite !mult_IZR. ring.
  - intros -> ->. unfold Budget.get_budget. rewrite E. reflexivity.
Qed.

(** The theorem on the small machine: 10 sources, 50 rows, one channel, one
    correlation, the default fudge factor and ratio. *)
Lemma auto_memory_usage_is_the_product_witness :
  exists l name,
    Budget.dtype_name "complex" = Ok name
    /\ Budget.get_budget_locals Budget.small_machine 10 50 1 1 "complex"
         Budget.default_args 2 100 = Ok l
    /\ (Budget.memory_usage l
        = IZR (Budget.rows_per_chunk l) * IZR (Budget.sources_per_chunk l)
          * IZR 1 * IZR 1 * IZR (Budget.itemsize name)
          * 2 * IZR (Budget.threads Budget.small_machine Budget.default_args))%R
    /\ (2%R = 2%R -> 100%Z = 100%Z ->
        Budget.get_budget Budget.small_machine 10 50 1 1 "complex"
          Budget.default_args
        = Ok (Budget.rows_per_chunk l, Budget.sources_per_chunk l)).
Proof.
  apply (auto_memory_usage_is_the_product Budget.small_machine 10 50 1 1
           "complex" Budget.default_args 2 100).
  - lia.
  - lia.
  - lia.
  - left. reflexivity.
  - left. reflexivity.
  - reflexivity.
  - reflexivity.
  - simpl. lia.
  - simpl. lra.
  - reflexivity.
  - lra.
  - lia.
Defined.

(** C6. When exactly one of the two chunk sizes is nonzero, [get_budget]
    returns no plan: with one of the two data types it leaves through
    [sys.exit(1)]. No chunk size is derived from the one that was given.
    When both are nonzero, the two values are returned as given. *)
Theorem partial_override_is_fatal
    (ps : Budget.psutil) (nr_sources nr_rows nr_chans nr_corrs : Z)
    (data_type : string) (args : Budget.cb_args) :
  ((Budget.model_chunks args = 0%Z /\ Budget.row_chunks args <> 0%Z)
   \/ (Budget.model_chunks args <> 0%Z /\ Budget.row_chunks args = 0%Z) ->
   is_ok (Budget.get_budget ps nr_sources nr_rows nr_chans nr_corrs
            data_type args) = false
   /\ (data_type = "complex" \/ data_type = "dcomplex" ->
       Budget.get_budget ps nr_sources nr_rows nr_chans nr_corrs
         data_type args = Raise (SystemExit 1)))
  /\
  (Budget.model_chunks args <> 0%Z -> Budget.row_chunks args <> 0%Z ->
   data_type = "complex" \/ data_type = "dcomplex" ->
   Budget.get_budget ps nr_sources nr_rows nr_chans nr_corrs data_type args
   = Ok (Budget.row_chunks args, Budget.model_chunks args)).
Proof.
  split.
  - intros H. split.
    + unfold Budget.get_budget, Budget.get_budget_locals.
      destruct (Budget.dtype_name data_type); [|reflexivity].
      cbn [rbind].
      destruct H as [[-> Hr] | [Hm ->]];
        rewrite truthy_zero, truthy_nonzero by assumption; reflexivity.
    + intros Hd. now apply partial_path.
  - intros Hm Hr Hd. now apply override_path.
Qed.

(** The theorem with 1000 rows per chunk asked for: alone, and together
    with 20 sources per chunk. *)
Lemma partial_override_is_fatal_witness :
  Budget.get_budget Budget.small_machine 10 50 1 1 "complex"
    {| Budget.num_workers := 0; Budget.model_chunks := 0;
       Budget.row_chunks := 1000; Budget.memory_fraction := 1 / 2 |}
  = Raise (SystemExit 1)
  /\ Budget.get_budget Budget.small_machine 10 50 1 1 "complex"
       {| Budget.num_workers := 0; Budget.model_chunks := 20;
          Budget.row_chunks := 1000; Budget.memory_fraction := 1 / 2 |}
     = Ok (1000%Z, 20%Z).
Proof.
  split.
  - apply (proj1 (partial_override_is_fatal Budget.small_machine 10 50 1 1
                    "complex"
                    {| Budget.num_workers := 0; Budget.model_chunks := 0;
                       Budget.row_chunks := 1000;
                       Budget.memory_fraction := 1 / 2 |})).
    + left. simpl. split; [reflexivity | lia].
    + left. reflexivity.
  - apply (proj2 (partial_override_is_fatal Budget.small_machine 10 50 1 1
                    "complex"
                    {| Budget.num_workers := 0; Budget.model_chunks := 20;
                       Budget.row_chunks := 1000;
                       Budget.memory_fraction := 1 / 2 |})).
    + simpl. lia.
    + simpl. lia.
    + left. reflexivity.
Defined.




(** ** The flux spectrum *)

Section SpectrumFacts.
Import Spectrum.
Variable F : Type.
Variables fzero fone : F.
Variables fadd fsub fmul fdiv : F -> F -> F.
Variable fpow : F -> nat -> F.
Variables flog fexp : F -> F.

Abbreviation source := (source F).
Abbreviation term := (term F fzero fone fsub fmul fdiv fpow flog).
Abbreviation Is_add := (Is_add F fzero fone fadd fsub fmul fdiv fpow flog).
Abbreviation Is_loop := (Is_loop F fzero fone fadd fsub fmul fdiv fpow flog).
Abbreviation flux := (flux F fzero fone fadd fsub fmul fdiv fpow flog fexp).
Abbreviation tabulate := (tabulate F).
Abbreviation flux_uniform :=
  (flux_uniform F fzero fone fadd fsub fmul fdiv fpow flog fexp).

Lemma combine_map_self {A B : Type} (h : A -> B) (l : list A) :
  combine (List.map h l) l = List.map (fun x => (h x, x)) l.
Proof. induction l as [|x l IH]; [reflexivity|]. cbn. now rewrite IH. Qed.

Lemma Is_add_tabulate (log : bool) (jj : nat) (g : source -> F -> F)
    (srcs : list source) (frequency : list F) :
  Is_add log jj (tabulate g srcs frequency) srcs frequency
  = tabulate (fun s f => fadd (g s f) (term log jj s f)) srcs frequency.
Proof.
  unfold Spectrum.Is_add, Spectrum.tabulate.
  rewrite combine_map_self, List.map_map.
  apply List.map_ext. intros s.
  rewrite combine_map_self, List.map_map. reflexivity.
Qed.

Lemma Is_loop_tabulate (flags : list bool) (log : bool)
    (srcs : list source) (frequency : list F) (jjs : list nat) :
  Numpy.truth_value flags = Ok log ->
  forall g,
    Is_loop flags jjs (tabulate g srcs frequency) srcs frequency
    = Ok (tabulate
            (fun s f =>
               fold_left (fun acc jj => fadd acc (term log jj s f)) jjs
                         (g s f))
            srcs frequency).
Proof.
  intros Hb. induction jjs as [|jj jjs IH]; intros g; [reflexivity|].
  cbn [Spectrum.Is_loop]. rewrite Hb. cbn [rbind].
  rewrite Is_add_tabulate, IH. reflexivity.
Qed.

Lemma flux_is_uniform (flags : list bool) (log : bool)
    (srcs : list source) (frequency : list F) :
  Numpy.truth_value flags = Ok log ->
  flux flags srcs frequency = Ok (flux_uniform log srcs frequency).
Proof.
  intros Hb. unfold Spectrum.flux. rewrite Hb. cbn [rbind].
  change (Is_init F fmul fpow flog log srcs frequency)
    with (tabulate
            (fun s f =>
               if log then fmul (flog (stokes_I F s)) (fpow f 0)
               else fmul (stokes_I F s) (fpow f 0)) srcs frequency).
  rewrite (Is_loop_tabulate flags log srcs frequency _ Hb). cbn [rbind].
  unfold Spectrum.flux_uniform, Spectrum.model, Spectrum.tabulate.
  destruct log; [|reflexivity].
  rewrite List.map_map. f_equal. apply List.map_ext. intros s.
  now rewrite List.map_map.
Qed.
End SpectrumFacts.

(** ** Time indices *)

Section UniqueFacts.
Import Numpy.
Local Open Scope list_scope.
Variable T : Type.
Variable leb : T -> T -> bool.
Hypothesis leb_total : forall x y, leb x y = true \/ leb y x = true.
Hypothesis leb_trans :
  forall x y z, leb x y = true -> leb y z = true -> leb x z = true.
Hypothesis leb_antisym :
  forall x y, leb x y = true -> leb y x = true -> x = y.

Abbreviation before := (before T leb).
Abbreviation insert_uniq := (insert_uniq T leb).
Abbreviation unique := (unique T leb).
Abbreviation index_of := (index_of T leb).
Abbreviation same := (same T leb).

Lemma leb_refl x : leb x x = true.
Proof. destruct (leb_total x x); assumption. Qed.

Lemma same_eq x y : same x y = true <-> x = y.
Proof.
  unfold Numpy.same. split.
  - intros H. apply andb_prop in H as [H1 H2]. now apply leb_antisym.
  - intros ->. now rewrite leb_refl.
Qed.

Lemma before_leb x y : before x y -> leb x y = true.
Proof. unfold Numpy.before. intros H. destruct (leb_total x y); congruence. Qed.

Lemma before_trans x y z : before x y -> before y z -> before x z.
Proof.
  unfold Numpy.before. intros H1 H2.
  destruct (leb z x) eqn:E; [|reflexivity].
  assert (leb y x = true)
    by (apply (leb_trans y z x); [now apply before_leb | exact E]).
  congruence.
Qed.

Lemma In_insert_uniq x y l :
  List.In x (insert_uniq y l) <-> x = y \/ List.In x l.
Proof.
  induction l as [|z l IH]; cbn.
  - intuition.
  - destruct (leb y z) eqn:E1; [destruct (leb z y) eqn:E2|].
    + assert (y = z) by now apply leb_antisym. subst. cbn. intuition.
    + cbn. intuition.
    + cbn. rewrite IH. intuition.
Qed.

Lemma In_unique x a : List.In x (unique a) <-> List.In x a.
Proof.
  induction a as [|y a IH]; cbn; [reflexivity|].
  fold (unique a). rewrite In_insert_uniq, IH. intuition.
Qed.

Lemma insert_uniq_sorted y l :
  StronglySorted before l -> StronglySorted before (insert_uniq y l).
Proof.
  induction l as [|z l IH]; intros Hs; cbn.
  - repeat constructor.
  - apply StronglySorted_inv in Hs as [Hs Hz].
    destruct (leb y z) eqn:E1; [destruct (leb z y) eqn:E2|].
    + now constructor.
    + constructor; [now constructor|].
      constructor; [exact E2|].
      rewrite List.Forall_forall in Hz |- *. intros w Hw.
      apply (before_trans y z w); [exact E2 | now apply Hz].
    + constructor; [now apply IH|].
      rewrite List.Forall_forall in Hz |- *. intros w Hw.
      apply In_insert_uniq in Hw as [-> | Hw]; [exact E1 | now apply Hz].
Qed.

Lemma unique_sorted a : StronglySorted before (unique a).
Proof.
  induction a as [|y a IH]; cbn; [constructor|].
  now apply insert_uniq_sorted.
Qed.

(** In an increasing list, the index grows with the element. *)
Lemma index_of_sorted u :
  StronglySorted before u ->
  forall x y, List.In x u -> List.In y u ->
    ((index_of x u < index_of y u)%nat <-> before x y)
    /\ nth_error u (index_of x u) = Some x.
Proof.
  induction u as [|z u IH]; intros Hs x y Hx Hy; [destruct Hx|].
  apply StronglySorted_inv in Hs as [Hs Hz].
  rewrite List.Forall_forall in Hz. cbn [Numpy.index_of].
  destruct Hx as [<- | Hx], Hy as [<- | Hy].
  - rewrite (proj2 (same_eq z z) eq_refl). split; [|reflexivity].
    unfold Numpy.before. rewrite leb_refl. split; [lia | discriminate].
  - rewrite (proj2 (same_eq z z) eq_refl).
    assert (Hzy : before z y) by now apply Hz.
    assert (E : same y z = false).
    { unfold Numpy.same. unfold Numpy.before in Hzy. now rewrite Hzy. }
    rewrite E. split; [|reflexivity]. split; [intros _; exact Hzy | lia].
  - rewrite (proj2 (same_eq z z) eq_refl).
    assert (Hzx : before z x) by now apply Hz.
    assert (E : same x z = false).
    { unfold Numpy.same. unfold Numpy.before in Hzx. now rewrite Hzx. }
    rewrite E. split.
    + split; [lia|]. unfold Numpy.before. intros H.
      apply before_leb in Hzx. congruence.
    + cbn. now apply (IH Hs x x).
  - assert (Hzx : before z x) by now apply Hz.
    assert (Hzy : before z y) by now apply Hz.
    assert (Ex : same x z = false).
    { unfold Numpy.same. unfold Numpy.before in Hzx. now rewrite Hzx. }
    assert (Ey : same y z = false).
    { unfold Numpy.same. unfold Numpy.before in Hzy. now rewrite Hzy. }
    rewrite Ex, Ey. destruct (IH Hs x y Hx Hy) as [H1 H2].
    split; [rewrite <- H1; lia | exact H2].
Qed.

Lemma index_of_nth u :
  StronglySorted before u ->
  forall k x, nth_error u k = Some x -> index_of x u = k.
Proof.
  induction u as [|z u IH]; intros Hs k x Hk; [now destruct k|].
  apply StronglySorted_inv in Hs as [Hs Hz].
  rewrite List.Forall_forall in Hz. cbn [Numpy.index_of].
  destruct k as [|k]; cbn in Hk.
  - injection Hk as ->. now rewrite (proj2 (same_eq x x) eq_refl).
  - assert (Hzx : before z x) by (apply Hz; eapply nth_error_In; eauto).
    unfold Numpy.same. unfold Numpy.before in Hzx. rewrite Hzx, andb_false_l.
    f_equal. now apply IH.
Qed.

Lemma time_index_spec (TIME : list T) :
  let ti := TimeIndex.time_index leb TIME in
  List.length ti = List.length TIME
  /\ (forall i j x y a b,
        nth_error TIME i = Some x -> nth_error TIME j = Some y ->
        nth_error ti i = Some a -> nth_error ti j = Some b ->
        ((a < b)%nat <-> before x y) /\ (a = b <-> x = y))
  /\ (forall k,
        (k < List.length (unique TIME))%nat <->
        exists i, nth_error ti i = Some k).
Proof.
  cbn zeta. unfold TimeIndex.time_index, Numpy.unique_inverse. cbn [snd].
  pose proof (unique_sorted TIME) as Hs.
  split; [apply List.length_map|]. split.
  - intros i j x y a b Hx Hy Ha Hb.
    rewrite nth_error_map, Hx in Ha. rewrite nth_error_map, Hy in Hb.
    cbn in Ha, Hb. injection Ha as <-. injection Hb as <-.
    assert (Ix : List.In x (unique TIME))
      by (apply In_unique; eapply nth_error_In; eauto).
    assert (Iy : List.In y (unique TIME))
      by (apply In_unique; eapply nth_error_In; eauto).
    destruct (index_of_sorted _ Hs x y Ix Iy) as [H1 H2].
    destruct (index_of_sorted _ Hs y x Iy Ix) as [H3 H4].
    split; [exact H1|]. split.
    + intros E. rewrite E in H2. rewrite H2 in H4. now injection H4.
    + now intros ->.
  - intros k. split.
    + intros Hk.
      destruct (nth_error (unique TIME) k) as [x|] eqn:E;
        [|apply nth_error_None in E; lia].
      assert (Ix : List.In x (unique TIME)) by (eapply nth_error_In; eauto).
      assert (Ia : List.In x TIME) by now apply In_unique.
      apply In_nth_error in Ia as [i Hi]. exists i.
      rewrite nth_error_map, Hi. cbn. f_equal.
      now apply index_of_nth.
    + intros [i Hi]. rewrite nth_error_map in Hi.
      destruct (nth_error TIME i) as [x|] eqn:E; [|discriminate].
      cbn in Hi. injection Hi as <-.
      assert (Ix : List.In x (unique TIME))
        by (apply In_unique; eapply nth_error_In; eauto).
      destruct (index_of_sorted _ Hs x x Ix Ix) as [_ H2].
      apply nth_error_Some. congruence.
Qed.
Abbreviation upto := (upto T leb).
Abbreviation first_seen := (first_seen T leb).

Lemma before_irrefl x : ~ before x x.
Proof.
  unfold Numpy.before. rewrite (leb_refl x). discriminate.
Qed.

Lemma before_asym x y : before x y -> before y x -> False.
Proof.
  unfold Numpy.before. intros H1 H2.
  destruct (leb_total x y); congruence.
Qed.

(** Two increasing lists with the same elements are the same list. *)
Lemma sorted_same_elements (l1 l2 : list T) :
  StronglySorted before l1 -> StronglySorted before l2 ->
  (forall x, List.In x l1 <-> List.In x l2) -> l1 = l2.
Proof.
  revert l2. induction l1 as [|z1 l1 IH]; intros l2 H1 H2 Hin.
  - destruct l2 as [|z2 l2]; [reflexivity|].
    destruct (proj2 (Hin z2) (or_introl eq_refl)).
  - destruct l2 as [|z2 l2];
      [destruct (proj1 (Hin z1) (or_introl eq_refl))|].
    apply StronglySorted_inv in H1 as [H1 Hz1].
    apply StronglySorted_inv in H2 as [H2 Hz2].
    rewrite List.Forall_forall in Hz1, Hz2.
    assert (E : z1 = z2).
    { destruct (proj1 (Hin z1) (or_introl eq_refl)) as [E | I1];
        [now symmetry|].
      destruct (proj2 (Hin z2) (or_introl eq_refl)) as [E | I2]; [exact E|].
      exfalso. apply (before_asym z1 z2); [now apply Hz1 | now apply Hz2]. }
    subst z2. f_equal. apply IH; try assumption.
    intros x. split; intros Hx.
    + destruct (proj1 (Hin x) (or_intror Hx)) as [E | I]; [|exact I].
      subst x. exfalso. exact (before_irrefl z1 (Hz1 z1 Hx)).
    + destruct (proj2 (Hin x) (or_intror Hx)) as [E | I]; [|exact I].
      subst x. exfalso. exact (before_irrefl z1 (Hz2 z1 Hx)).
Qed.

Lemma existsb_same x l : List.existsb (same x) l = true <-> List.In x l.
Proof.
  rewrite List.existsb_exists. split.
  - intros [y [Hy E]]. apply same_eq in E.
    now subst.
  - intros H. exists x. split; [exact H|].
    now apply same_eq.
Qed.

Lemma index_of_app_in x l r :
  List.In x l -> index_of x (l ++ r) = index_of x l.
Proof.
  induction l as [|z l IH]; intros H; [destruct H|].
  cbn. destruct (same x z) eqn:E; [reflexivity|].
  destruct H as [<- | H].
  - rewrite (proj2 (same_eq z z) eq_refl) in E.
    discriminate.
  - f_equal. now apply IH.
Qed.

Lemma index_of_app_new x l r :
  ~ List.In x l -> index_of x (l ++ x :: r) = List.length l.
Proof.
  induction l as [|z l IH]; intros H; cbn.
  - now rewrite (proj2 (same_eq x x) eq_refl).
  - destruct (same x z) eqn:E.
    + apply same_eq in E. subst.
      exfalso. apply H. now left.
    + f_equal. apply IH. intros I. apply H. now right.
Qed.

Lemma sorted_filter (f : T -> bool) (l : list T) :
  StronglySorted before l -> StronglySorted before (List.filter f l).
Proof.
  induction 1 as [|y l Hl IHl Hy]; cbn; [constructor|].
  destruct (f y); [|exact IHl].
  constructor; [exact IHl|].
  rewrite List.Forall_forall in Hy |- *. intros w Hw.
  apply List.filter_In in Hw as [Hw _]. now apply Hy.
Qed.

Lemma sorted_app (l1 l2 : list T) :
  StronglySorted before l1 -> StronglySorted before l2 ->
  (forall x y, List.In x l1 -> List.In y l2 -> before x y) ->
  StronglySorted before (l1 ++ l2).
Proof.
  induction 1 as [|z l Hl IHl Hz]; intros H2 Hb; cbn; [exact H2|].
  constructor.
  - apply IHl; [exact H2|]. intros x y Hx Hy. apply Hb; [now right|exact Hy].
  - rewrite List.Forall_forall in Hz |- *. intros w Hw.
    apply List.in_app_iff in Hw as [Hw | Hw]; [now apply Hz|].
    apply Hb; [now left | exact Hw].
Qed.

(** An increasing list [seen] below every element of [a] starts the
    distinct elements of [seen ++ a]. *)
Lemma unique_app_prefix (seen a : list T) :
  StronglySorted before seen ->
  (forall s x, List.In s seen -> List.In x a -> upto s x) ->
  exists rest,
    unique (seen ++ a) = seen ++ rest
    /\ forall x, List.In x rest -> ~ List.In x seen.
Proof.
  intros Hs Hle.
  set (fresh := fun y => negb (List.existsb (same y) seen)).
  exists (List.filter fresh (unique a)).
  assert (Hfresh : forall x, List.In x (List.filter fresh (unique a)) <->
                             List.In x a /\ ~ List.In x seen).
  { intros x. rewrite List.filter_In.
    rewrite In_unique. unfold fresh.
    rewrite negb_true_iff, <- not_true_iff_false, existsb_same. reflexivity. }
  split; [|intros x Hx; now apply Hfresh in Hx].
  apply sorted_same_elements.
  - apply unique_sorted.
  - apply sorted_app; [exact Hs | |].
    + apply sorted_filter.
      apply unique_sorted.
    + intros s y Is Iy. apply Hfresh in Iy as [Iy Ny].
      unfold Numpy.before. destruct (leb y s) eqn:E; [|reflexivity].
      exfalso. apply Ny.
      assert (y = s) by (apply leb_antisym; [exact E | now apply Hle]).
      now subst.
  - intros x. rewrite In_unique, !List.in_app_iff, Hfresh.
    split; [|tauto].
    intros [H | H]; [now left|].
    destruct (List.existsb (same x) seen) eqn:E.
    + left. now apply existsb_same.
    + right. split; [exact H|]. rewrite <- existsb_same. congruence.
Qed.

Lemma unique_same_elements (l1 l2 : list T) :
  (forall x, List.In x l1 <-> List.In x l2) -> unique l1 = unique l2.
Proof.
  intros H. apply sorted_same_elements;
    try apply unique_sorted.
  intros x. rewrite !In_unique. apply H.
Qed.

(** For timestamps that never decrease, the order of first occurrence is
    the order of the values. *)
Lemma first_seen_sorted (a : list T) :
  forall seen,
    StronglySorted before seen ->
    StronglySorted upto (seen ++ a) ->
    first_seen seen a
    = List.map (fun x => index_of x (unique (seen ++ a))) a.
Proof.
  induction a as [|x a IH]; intros seen Hs Ha; [reflexivity|].
  cbn [Numpy.first_seen List.map].
  assert (Hle : forall s y, List.In s seen -> List.In y (x :: a) -> upto s y).
  { clear IH Hs. induction seen as [|z seen IHs]; intros s y Is Iy;
      [destruct Is|].
    cbn in Ha. apply StronglySorted_inv in Ha as [Ha Hz].
    destruct Is as [<- | Is]; [|now apply IHs].
    rewrite List.Forall_forall in Hz. apply Hz.
    apply List.in_app_iff. now right. }
  destruct (List.existsb (same x) seen) eqn:E.
  - apply existsb_same in E.
    assert (Hu : unique (seen ++ x :: a) = unique (seen ++ a)).
    { apply unique_same_elements. intros y.
      rewrite !List.in_app_iff. cbn. split; [|tauto].
      intros [H | [<- | H]]; tauto. }
    rewrite Hu. f_equal.
    + destruct (unique_app_prefix seen a Hs) as [rest [Er _]].
      { intros s y Is Iy. apply Hle; [exact Is | now right]. }
      rewrite Er. symmetry. now apply index_of_app_in.
    + apply IH; [exact Hs|].
      clear -Ha. induction seen as [|z seen IHs]; cbn in *.
      * now apply StronglySorted_inv in Ha as [Ha _].
      * apply StronglySorted_inv in Ha as [Ha Hz].
        constructor; [now apply IHs|].
        rewrite List.Forall_forall in Hz |- *. intros w Hw. apply Hz.
        apply List.in_app_iff in Hw as [Hw | Hw]; apply List.in_app_iff;
          [now left | right; now right].
  - assert (Nx : ~ List.In x seen).
    { intros I. apply existsb_same in I. congruence. }
    assert (Hs' : StronglySorted before (seen ++ [x])).
    { apply sorted_app; [exact Hs | repeat constructor |].
      intros s y Is [<- | []]. unfold Numpy.before.
      destruct (leb x s) eqn:El; [|reflexivity].
      exfalso. apply Nx.
      assert (x = s)
        by (apply leb_antisym; [exact El | apply Hle; [exact Is | now left]]).
      now subst. }
    assert (Happ : seen ++ x :: a = (seen ++ [x]) ++ a)
      by (now rewrite <- List.app_assoc).
    f_equal.
    + destruct (unique_app_prefix (seen ++ [x]) a Hs') as [rest [Er _]].
      { intros s y Is Iy. apply List.in_app_iff in Is as [Is | [<- | []]].
        - apply Hle; [exact Is | now right].
        - rewrite Happ in Ha. clear -Ha Iy.
          induction seen as [|z seen IHs]; cbn in Ha.
          + apply StronglySorted_inv in Ha as [_ Hz].
            rewrite List.Forall_forall in Hz. now apply Hz.
          + apply StronglySorted_inv in Ha as [Ha _]. now apply IHs. }
      rewrite Happ, Er, <- List.app_assoc. cbn.
      symmetry. now apply index_of_app_new.
    + rewrite Happ. apply IH; [exact Hs'|]. now rewrite <- Happ.
Qed.

Lemma time_index_sorted (TIME : list T) :
  StronglySorted upto TIME ->
  TimeIndex.time_index leb TIME = first_occurrence_index T leb TIME.
Proof.
  intros H. unfold TimeIndex.time_index, Numpy.unique_inverse,
    Numpy.first_occurrence_index. cbn [snd].
  symmetry. apply (first_seen_sorted TIME []); [constructor | exact H].
Qed.
End UniqueFacts.

Lemma Zleb_total (x y : Z) : (x <=? y)%Z = true \/ (y <=? x)%Z = true.
Proof. destruct (Z.leb_spec x y); [now left | right; apply Z.leb_le; lia]. Qed.

Lemma Zleb_trans (x y z : Z) :
  (x <=? y)%Z = true -> (y <=? z)%Z = true -> (x <=? z)%Z = true.
Proof. rewrite !Z.leb_le. lia. Qed.

Lemma Zleb_antisym (x y : Z) :
  (x <=? y)%Z = true -> (y <=? x)%Z = true -> x = y.
Proof. rewrite !Z.leb_le. lia. Qed.

(** C9, as stated, fails: for the timestamps 5, 3 the indices are 1, 0; the
    first timestamp encountered does not get index 0, which the order of
    first occurrence would give it. *)
Lemma time_index_of_5_3 :
  TimeIndex.time_index Z.leb [5; 3]%Z = [1; 0]%nat
  /\ Numpy.first_occurrence_index Z Z.leb [5; 3]%Z = [0; 1]%nat.
Proof. split; reflexivity. Qed.

(** C9, amended. For every sequence of timestamps, of any totally ordered
    type, the time indices are dense integers assigned in increasing order
    of the timestamps' values, whatever the order in which the timestamps
    occur: there is one index per timestamp of the sequence; of two
    timestamps the smaller has the smaller index, and equal timestamps, and
    only they, have equal indices; the indices that occur are exactly those
    below the number of distinct timestamps. When the timestamps never
    decrease along the sequence, this is the order of first occurrence. *)
Theorem time_index_follows_the_values
    (T : Type) (leb : T -> T -> bool) (TIME : list T) :
  (forall x y, leb x y = true \/ leb y x = true) ->
  (forall x y z, leb x y = true -> leb y z = true -> leb x z = true) ->
  (forall x y, leb x y = true -> leb y x = true -> x = y) ->
  List.length (TimeIndex.time_index leb TIME) = List.length TIME
  /\ (forall i j x y a b,
        nth_error TIME i = Some x -> nth_error TIME j = Some y ->
        nth_error (TimeIndex.time_index leb TIME) i = Some a ->
        nth_error (TimeIndex.time_index leb TIME) j = Some b ->
        ((a < b)%nat <-> Numpy.before T leb x y) /\ (a = b <-> x = y))
  /\ (forall k,
        (k < List.length (Numpy.unique T leb TIME))%nat <->
        exists i, nth_error (TimeIndex.time_index leb TIME) i = Some k)
  /\ (StronglySorted (Numpy.upto T leb) TIME ->
      TimeIndex.time_index leb TIME
      = Numpy.first_occurrence_index T leb TIME).
Proof.
  intros Htotal Htrans Hanti.
  destruct (time_index_spec T leb Htotal Htrans Hanti TIME) as [H1 [H2 H3]].
  split; [exact H1|]. split; [exact H2|]. split; [exact H3|].
  apply (time_index_sorted T leb Htotal Htrans Hanti).
Qed.

(** The theorem on the integer timestamps 5, 3, 5. *)
Lemma time_index_follows_the_values_witness :
  List.length (TimeIndex.time_index Z.leb [5; 3; 5]%Z)
  = List.length [5; 3; 5]%Z
  /\ (forall i j x y a b,
        nth_error [5; 3; 5]%Z i = Some x -> nth_error [5; 3; 5]%Z j = Some y ->
        nth_error (TimeIndex.time_index Z.leb [5; 3; 5]%Z) i = Some a ->
        nth_error (TimeIndex.time_index Z.leb [5; 3; 5]%Z) j = Some b ->
        ((a < b)%nat <-> Numpy.before Z Z.leb x y) /\ (a = b <-> x = y))
  /\ (forall k,
        (k < List.length (Numpy.unique Z Z.leb [5; 3; 5]%Z))%nat <->
        exists i,
          nth_error (TimeIndex.time_index Z.leb [5; 3; 5]%Z) i = Some k)
  /\ (StronglySorted (Numpy.upto Z Z.leb) [5; 3; 5]%Z ->
      TimeIndex.time_index Z.leb [5; 3; 5]%Z
      = Numpy.first_occurrence_index Z Z.leb [5; 3; 5]%Z).
Proof.
  apply (time_index_follows_the_values Z Z.leb [5; 3; 5]%Z).
  - exact Zleb_total.
  - exact Zleb_trans.
  - exact Zleb_antisym.
Defined.

(** C1: the code on a mixed collection. The claim asks that each source be
    evaluated with the model its own flag names. With one flag per source
    the code raises on the pair of a logarithmic and an ordinary source,
    whatever the two sources and the frequencies are: line 333 asks for the
    truth value of the whole flag array, and an array of two or more
    elements has none. The same holds for every flag array of two or more
    elements, mixed or not. Where the evaluation returns, with one flag
    per source, there is at most one source, and the result is the
    evaluation per source. *)
Theorem flux_of_a_mixed_pair_raises
    (F : Type) (fzero fone : F) (fadd fsub fmul fdiv : F -> F -> F)
    (fpow : F -> nat -> F) (flog fexp : F -> F)
    (s1 s2 : Spectrum.source F) (frequency : list F) :
  Spectrum.flux F fzero fone fadd fsub fmul fdiv fpow flog fexp
    [true; false] [s1; s2] frequency
  = Raise (ValueError
      "The truth value of an array with more than one element is ambiguous. Use a.any() or a.all()")
  /\ Spectrum.spectrum F fzero fone fadd fsub fmul fdiv fpow flog fexp
       [true; false] [s1; s2] frequency
     = Raise (ValueError
         "The truth value of an array with more than one element is ambiguous. Use a.any() or a.all()")
  /\ (forall b1 b2 flags srcs,
        Spectrum.flux F fzero fone fadd fsub fmul fdiv fpow flog fexp
          (b1 :: b2 :: flags) srcs frequency
        = Raise (ValueError
            "The truth value of an array with more than one element is ambiguous. Use a.any() or a.all()"))
  /\ (forall log_spec_ind srcs Is,
        List.length log_spec_ind = List.length srcs ->
        Spectrum.flux F fzero fone fadd fsub fmul fdiv fpow flog fexp
          log_spec_ind srcs frequency = Ok Is ->
        (List.length srcs <= 1)%nat
        /\ Is = Spectrum.flux_per_source F fzero fone fadd fsub fmul fdiv
                  fpow flog fexp log_spec_ind srcs frequency).
Proof.
  split; [reflexivity|]. split; [reflexivity|]. split; [reflexivity|].
  intros [|b [|b' flags]] srcs Is Hlen E.
  - destruct srcs as [|s srcs]; [|discriminate Hlen].
    cbn in E. injection E as <-. split; [cbn; lia | reflexivity].
  - destruct srcs as [|s [|s' srcs]]; try discriminate Hlen.
    rewrite (flux_is_uniform F fzero fone fadd fsub fmul fdiv fpow flog
               fexp [b] b [s] frequency eq_refl) in E.
    injection E as <-. split; [cbn; lia | reflexivity].
  - discriminate E.
Qed.

(** * Further properties of the code *)

(** ** [get_budget] *)

(** X3. A data type other than "complex" and "dcomplex" raises [KeyError]
    in every path: the table of line 20 is read before the chunk sizes are
    looked at, so the run ends there even where it would otherwise leave
    through [sys.exit]. *)
Theorem unknown_data_type_raises_key_error
    (ps : Budget.psutil) (nr_sources nr_rows nr_chans nr_corrs : Z)
    (data_type : string) (args : Budget.cb_args) :
  String.eqb data_type "complex" = false ->
  String.eqb data_type "dcomplex" = false ->
  Budget.get_budget ps nr_sources nr_rows nr_chans nr_corrs data_type args
  = Raise (KeyError data_type).
Proof.
  intros H1 H2. unfold Budget.get_budget, Budget.get_budget_locals,
    Budget.dtype_name. rewrite H1, H2. reflexivity.
Qed.

(** The theorem at the data type "float", with one chunk size given. *)
Lemma unknown_data_type_raises_key_error_witness :
  Budget.get_budget Budget.small_machine 10 50 1 1 "float"
    {| Budget.num_workers := 0; Budget.model_chunks := 0;
       Budget.row_chunks := 1000; Budget.memory_fraction := 1 / 2 |}
  = Raise (KeyError "float").
Proof.
  apply (unknown_data_type_raises_key_error Budget.small_machine 10 50 1 1
           "float").
  - reflexivity.
  - reflexivity.
Defined.

(** X4. A negative memory fraction makes the automatic path raise: the
    allowed number of pairs is negative, its square root is not a number,
    and the conversion to an integer raises [ValueError]. No chunk size is
    returned. *)
Theorem negative_memory_fraction_raises
    (ps : Budget.psutil) (nr_sources nr_rows nr_chans nr_corrs : Z)
    (data_type : string) (args : Budget.cb_args) :
  data_type = "complex" \/ data_type = "dcomplex" ->
  (0 < nr_chans)%Z -> (0 < nr_corrs)%Z -> (0 < Budget.threads ps args)%Z ->
  (0 < Budget.virtual_memory_total ps)%Z ->
  (Budget.memory_fraction args < 0)%R ->
  Budget.model_chunks args = 0%Z -> Budget.row_chunks args = 0%Z ->
  Budget.get_budget ps nr_sources nr_rows nr_chans nr_corrs data_type args
  = Raise (ValueError "cannot convert float NaN to integer").
Proof.
  intros Hd Hc Hk Ht Hmem Hmf Hm Hr.
  destruct (dtype_name_valid data_type Hd) as [name [Hn Hsize]].
  unfold Budget.get_budget, Budget.get_budget_locals.
  rewrite Hn. cbn [rbind]. rewrite Hm, Hr, truthy_zero. cbn [andb negb].
  assert (Hb : (0 < IZR (nr_chans * nr_corrs * Budget.itemsize name) * 2)%R).
  { apply Rmult_lt_0_compat; [|lra]. apply (IZR_lt 0).
    apply Z.mul_pos_pos; [apply Z.mul_pos_pos; assumption|].
    destruct Hsize as [-> | ->]; lia. }
  assert (Ht' : (0 < IZR (Budget.threads ps args))%R)
    by (apply (IZR_lt 0); exact Ht).
  assert (Hmem' : (0 < IZR (Budget.virtual_memory_total ps))%R)
    by (apply (IZR_lt 0); exact Hmem).
  rewrite rdiv_ok by lra. cbn [rbind].
  rewrite rdiv_ok by lra. cbn [rbind].
  unfold Budget.int_min_sqrt.
  destruct (Rlt_dec _ 0) as [_|N]; [reflexivity|].
  exfalso. apply N.
  assert (Hnum : (IZR (Budget.virtual_memory_total ps)
                  * Budget.memory_fraction args < 0)%R) by nra.
  assert (Hq : (IZR (Budget.virtual_memory_total ps)
                * Budget.memory_fraction args
                / (IZR (nr_chans * nr_corrs * Budget.itemsize name) * 2)
                / IZR (Budget.threads ps args) < 0)%R).
  { unfold Rdiv.
    set (a := (IZR (Budget.virtual_memory_total ps)
               * Budget.memory_fraction args)%R) in *.
    set (b := (/ (IZR (nr_chans * nr_corrs * Budget.itemsize name) * 2))%R).
    set (c := (/ IZR (Budget.threads ps args))%R).
    assert (Hb0 : (0 < b)%R) by (now apply Rinv_0_lt_compat).
    assert (Hc0 : (0 < c)%R) by (now apply Rinv_0_lt_compat).
    assert (Hab : (a * b < 0)%R) by nra.
    nra. }
  match goal with |- (?q * _ < 0)%R => set (x := q) in * end.
  lra.
Qed.

(** The theorem on the small machine with the memory fraction -1/2. *)
Lemma negative_memory_fraction_raises_witness :
  Budget.get_budget Budget.small_machine 10 50 1 1 "complex"
    {| Budget.num_workers := 0; Budget.model_chunks := 0;
       Budget.row_chunks := 0; Budget.memory_fraction := - (1 / 2) |}
  = Raise (ValueError "cannot convert float NaN to integer").
Proof.
  apply (negative_memory_fraction_raises Budget.small_machine 10 50 1 1
           "complex").
  - left. reflexivity.
  - lia.
  - lia.
  - reflexivity.
  - reflexivity.
  - simpl. lra.
  - reflexivity.
  - reflexivity.
Defined.

(** ** [corr_schema] and [einsum_schema] *)

(** X5. For a correlation count of 1, 2 or 4 and at least that many
    correlation types, [corr_schema] returns the first count types in their
    order (row by row in the 2x2 case); the types beyond the count are not
    read. *)
Theorem corr_schema_keeps_the_order (p : Schema.pol) :
  Schema.NUM_CORR p = 1 \/ Schema.NUM_CORR p = 2 \/ Schema.NUM_CORR p = 4 ->
  Schema.NUM_CORR p <= Z.of_nat (List.length (Schema.CORR_TYPE p)) ->
  exists s,
    Schema.corr_schema p = Ok s
    /\ Schema.flat s
       = firstn (Z.to_nat (Schema.NUM_CORR p)) (Schema.CORR_TYPE p).
Proof.
  destruct p as [n l]. cbn [Schema.NUM_CORR Schema.CORR_TYPE].
  intros [-> | [-> | ->]] Hlen; unfold Schema.corr_schema;
    cbn [Schema.NUM_CORR Schema.CORR_TYPE Z.eqb Pos.eqb].
  - destruct l as [|c0 l]; [cbn in Hlen; lia|].
    eexists; split; reflexivity.
  - destruct l as [|c0 [|c1 l]]; try (cbn in Hlen; lia).
    eexists; split; reflexivity.
  - destruct l as [|c0 [|c1 [|c2 [|c3 l]]]]; try (cbn in Hlen; lia).
    eexists; split; reflexivity.
Qed.

(** The theorem on four correlations with five types listed. *)
Lemma corr_schema_keeps_the_order_witness :
  exists s,
    Schema.corr_schema
      {| Schema.NUM_CORR := 4; Schema.CORR_TYPE := [9; 10; 11; 12; 5] |}
    = Ok s
    /\ Schema.flat s = firstn (Z.to_nat 4) [9; 10; 11; 12; 5].
Proof.
  apply (corr_schema_keeps_the_order
           {| Schema.NUM_CORR := 4; Schema.CORR_TYPE := [9; 10; 11; 12; 5] |}).
  - right. right. reflexivity.
  - simpl. lia.
Defined.

(** X6. For a correlation count of 1, 2 or 4 with fewer correlation types
    than the count, [corr_schema] raises [IndexError]: no shorter schema is
    returned. *)
Theorem corr_schema_with_too_few_types_raises (p : Schema.pol) :
  Schema.NUM_CORR p = 1 \/ Schema.NUM_CORR p = 2 \/ Schema.NUM_CORR p = 4 ->
  Z.of_nat (List.length (Schema.CORR_TYPE p)) < Schema.NUM_CORR p ->
  Schema.corr_schema p = Raise (IndexError "index out of bounds").
Proof.
  destruct p as [n l]. cbn [Schema.NUM_CORR Schema.CORR_TYPE].
  intros [-> | [-> | ->]] Hlen; unfold Schema.corr_schema;
    cbn [Schema.NUM_CORR Schema.CORR_TYPE Z.eqb Pos.eqb].
  - destruct l as [|c0 l]; [reflexivity | cbn in Hlen; lia].
  - destruct l as [|c0 [|c1 l]]; try reflexivity. cbn in Hlen; lia.
  - destruct l as [|c0 [|c1 [|c2 [|c3 l]]]]; try reflexivity.
    cbn in Hlen; lia.
Qed.

(** The theorem on four correlations with three types listed. *)
Lemma corr_schema_with_too_few_types_raises_witness :
  Schema.corr_schema
    {| Schema.NUM_CORR := 4; Schema.CORR_TYPE := [9; 10; 11] |}
  = Raise (IndexError "index out of bounds").
Proof.
  apply (corr_schema_with_too_few_types_raises
           {| Schema.NUM_CORR := 4; Schema.CORR_TYPE := [9; 10; 11] |}).
  - right. right. reflexivity.
  - simpl. lia.
Defined.

(** X7. The two schemas fit each other. [einsum_schema] returns a pattern
    exactly for the counts 1, 2 and 4, whatever the correlation types are;
    and whenever [corr_schema] returns a schema, [einsum_schema] returns a
    pattern whose brightness operand has one subscript for the source, one
    for the frequency exactly when the spectral flag is set, and as many
    further subscripts as the schema has dimensions. *)
Theorem einsum_pattern_fits_the_schema (p : Schema.pol) (dospec : bool) :
  (is_ok (Schema.einsum_schema p dospec) = true <->
   Schema.NUM_CORR p = 1 \/ Schema.NUM_CORR p = 2 \/ Schema.NUM_CORR p = 4)
  /\ forall s,
       Schema.corr_schema p = Ok s ->
       exists str pat sb,
         Schema.einsum_schema p dospec = Ok str
         /\ Schema.parse str = Some pat
         /\ Schema.operands pat = [ ["s"; "r"; "f"]%char; sb ]
         /\ Schema.mem "f"%char sb = dospec
         /\ List.length sb
            = (1 + (if dospec then 1 else 0)
               + List.length (Schema.shape s))%nat.
Proof.
  split.
  - unfold Schema.einsum_schema.
    destruct (Z.eqb_spec (Schema.NUM_CORR p) 4) as [E4|N4].
    { destruct dospec; cbn; intuition. }
    destruct (Z.eqb_spec (Schema.NUM_CORR p) 2) as [E2|N2].
    { destruct dospec; cbn; intuition. }
    destruct (Z.eqb_spec (Schema.NUM_CORR p) 1) as [E1|N1].
    { destruct dospec; cbn; intuition. }
    cbn. split; [discriminate | intros [H | [H | H]]; contradiction].
  - intros s. destruct p as [n l].
    unfold Schema.corr_schema, Schema.einsum_schema.
    cbn [Schema.NUM_CORR Schema.CORR_TYPE].
    destruct (Z.eqb_spec n 4) as [E4|N4].
    { destruct l as [|c0 [|c1 [|c2 [|c3 l]]]]; try discriminate.
      cbn. intros E; injection E as <-; destruct dospec;
        do 3 eexists; repeat split; reflexivity. }
    destruct (Z.eqb_spec n 2) as [E2|N2].
    { destruct l as [|c0 [|c1 l]]; try discriminate.
      cbn. intros E; injection E as <-; destruct dospec;
        do 3 eexists; repeat split; reflexivity. }
    destruct (Z.eqb_spec n 1) as [E1|N1].
    { destruct l as [|c0 l]; try discriminate.
      cbn. intros E; injection E as <-; destruct dospec;
        do 3 eexists; repeat split; reflexivity. }
    discriminate.
Qed.

(** ** The flux spectrum of [predict] *)

Section SpectrumMore.
Import Spectrum.
Variable F : Type.
Variables fzero fone : F.
Variables fadd fsub fmul fdiv : F -> F -> F.
Variable fpow : F -> nat -> F.
Variables flog fexp : F -> F.

Abbreviation flux := (flux F fzero fone fadd fsub fmul fdiv fpow flog fexp).
Abbreviation flux_uniform :=
  (flux_uniform F fzero fone fadd fsub fmul fdiv fpow flog fexp).
Abbreviation model :=
  (model F fzero fone fadd fsub fmul fdiv fpow flog fexp).
Abbreviation only_I := (only_I F fzero).

Lemma flux_cases (flags : list bool) (srcs : list (source F))
    (frequency : list F) :
  (exists log, Numpy.truth_value flags = Ok log
               /\ flux flags srcs frequency
                  = Ok (flux_uniform log srcs frequency))
  \/ (exists e, Numpy.truth_value flags = Raise e
                /\ flux flags srcs frequency = Raise e).
Proof.
  destruct (Numpy.truth_value flags) as [log|e] eqn:E.
  - left. exists log. split; [reflexivity|].
    now apply flux_is_uniform.
  - right. exists e. split; [reflexivity|].
    unfold Spectrum.flux. now rewrite E.
Qed.

Lemma model_only_I (log : bool) (n : nat) (s : source F) (f : F) :
  model log n (only_I s) f = model log n s f.
Proof. reflexivity. Qed.

Lemma flux_uniform_only_I (log : bool) (srcs : list (source F))
    (frequency : list F) :
  flux_uniform log (List.map only_I srcs) frequency
  = flux_uniform log srcs frequency.
Proof.
  unfold Spectrum.flux_uniform. rewrite List.map_map.
  assert (E : shape1 F (List.map only_I srcs) = shape1 F srcs)
    by (destruct srcs; reflexivity).
  rewrite E. apply List.map_ext. intros s.
  apply List.map_ext. intros f. apply model_only_I.
Qed.
End SpectrumMore.



(** X9. In the spectral path only the intensity of a source is used: the
    spectrum of a list of sources is that of the same sources with [Q], [U]
    and [V] put to zero, errors included; and every entry of a spectrum
    that is returned has [Q], [U] and [V] equal to zero. *)
Theorem spectrum_reads_only_the_intensity
    (F : Type) (fzero fone : F) (fadd fsub fmul fdiv : F -> F -> F)
    (fpow : F -> nat -> F) (flog fexp : F -> F)
    (log_spec_ind : list bool) (srcs : list (Spectrum.source F))
    (frequency : list F) :
  Spectrum.spectrum F fzero fone fadd fsub fmul fdiv fpow flog fexp
    log_spec_ind (List.map (Spectrum.only_I F fzero) srcs) frequency
  = Spectrum.spectrum F fzero fone fadd fsub fmul fdiv fpow flog fexp
      log_spec_ind srcs frequency
  /\ forall S,
       Spectrum.spectrum F fzero fone fadd fsub fmul fdiv fpow flog fexp
         log_spec_ind srcs frequency = Ok S ->
       List.Forall
         (List.Forall (fun x => exists i, x = (i, fzero, fzero, fzero))) S.
Proof.
  split.
  - unfold Spectrum.spectrum.
    destruct (flux_cases F fzero fone fadd fsub fmul fdiv fpow flog fexp
                log_spec_ind srcs frequency) as [[log [Ht H]] | [e [Ht H]]].
    + rewrite H.
      rewrite (flux_is_uniform F fzero fone fadd fsub fmul fdiv fpow flog
                 fexp log_spec_ind log _ frequency Ht).
      now rewrite flux_uniform_only_I.
    + rewrite H. unfold Spectrum.flux. now rewrite Ht.
  - intros S. unfold Spectrum.spectrum.
    destruct (Spectrum.flux F fzero fone fadd fsub fmul fdiv fpow flog fexp
                log_spec_ind srcs frequency) as [Is|e]; [|discriminate].
    cbn [rbind]. intros E. injection E as <-.
    apply List.Forall_forall. intros row Hrow.
    apply List.in_map_iff in Hrow as [r [<- _]].
    apply List.Forall_forall. intros x Hx.
    apply List.in_map_iff in Hx as [i [<- _]]. now exists i.
Qed.

(** X10. The flux evaluation returns exactly when [log_spec_ind] has at
    most one element; with two or more elements it raises the [ValueError]
    of the ambiguous truth value, whatever the sources and the frequencies
    are, and with none it uses the ordinary polynomial model. *)
Theorem flux_returns_iff_at_most_one_flag
    (F : Type) (fzero fone : F) (fadd fsub fmul fdiv : F -> F -> F)
    (fpow : F -> nat -> F) (flog fexp : F -> F)
    (log_spec_ind : list bool) (srcs : list (Spectrum.source F))
    (frequency : list F) :
  (is_ok (Spectrum.flux F fzero fone fadd fsub fmul fdiv fpow flog fexp
            log_spec_ind srcs frequency) = true
   <-> (List.length log_spec_ind <= 1)%nat)
  /\ ((2 <= List.length log_spec_ind)%nat ->
      Spectrum.flux F fzero fone fadd fsub fmul fdiv fpow flog fexp
        log_spec_ind srcs frequency
      = Raise (ValueError
          "The truth value of an array with more than one element is ambiguous. Use a.any() or a.all()"))
  /\ (log_spec_ind = [] ->
      Spectrum.flux F fzero fone fadd fsub fmul fdiv fpow flog fexp
        log_spec_ind srcs frequency
      = Ok (Spectrum.flux_uniform F fzero fone fadd fsub fmul fdiv fpow
              flog fexp false srcs frequency)).
Proof.
  destruct log_spec_ind as [|b [|b' flags]].
  - rewrite (flux_is_uniform F fzero fone fadd fsub fmul fdiv fpow flog
               fexp [] false srcs frequency eq_refl).
    cbn. repeat split; auto; lia.
  - rewrite (flux_is_uniform F fzero fone fadd fsub fmul fdiv fpow flog
               fexp [b] b srcs frequency eq_refl).
    cbn. repeat split; auto; try lia; discriminate.
  - unfold Spectrum.flux. cbn. repeat split; try discriminate; auto; lia.
Qed.

(** ** Time indices of [predict] *)

(** X13. The distinct timestamps and the time indices rebuild the
    timestamps: for every totally ordered type of timestamps, reading the
    array of distinct values at the time index of a row gives the timestamp
    of that row. *)
Theorem time_index_rebuilds_the_timestamps
    (T : Type) (leb : T -> T -> bool) (TIME : list T) :
  (forall x y, leb x y = true \/ leb y x = true) ->
  (forall x y z, leb x y = true -> leb y z = true -> leb x z = true) ->
  (forall x y, leb x y = true -> leb y x = true -> x = y) ->
  List.map (nth_error (fst (Numpy.unique_inverse T leb TIME)))
           (TimeIndex.time_index leb TIME)
  = List.map Some TIME.
Proof.
  intros Htotal Htrans Hanti.
  unfold TimeIndex.time_index, Numpy.unique_inverse. cbn [fst snd].
  rewrite List.map_map. apply List.map_ext_in. intros x Hx.
  pose proof (unique_sorted T leb Htotal Htrans Hanti TIME) as Hs.
  assert (Ix : List.In x (Numpy.unique T leb TIME))
    by (now apply (In_unique T leb Hanti)).
  exact (proj2 (index_of_sorted T leb Htotal Hanti _ Hs x x Ix Ix)).
Qed.

(** The theorem on the integer timestamps 5, 3, 5. *)
Lemma time_index_rebuilds_the_timestamps_witness :
  List.map (nth_error (fst (Numpy.unique_inverse Z Z.leb [5; 3; 5]%Z)))
           (TimeIndex.time_index Z.leb [5; 3; 5]%Z)
  = List.map Some [5; 3; 5]%Z.
Proof.
  apply (time_index_rebuilds_the_timestamps Z Z.leb [5; 3; 5]%Z).
  - exact Zleb_total.
  - exact Zleb_trans.
  - exact Zleb_antisym.
Defined.

(** ** The clustering routine, on any arguments *)

Section ClusterMore.
Import Cluster.
Variable ext : string -> list value -> result value.

Lemma bind_fails_left {A B : Type} (m : M A) (k : A -> M B) st :
  (exists e, m st = Raise e) -> exists e, bind m k st = Raise e.
Proof. intros [e H]. exists e. now apply bind_raise. Qed.

Lemma bind_fails_right {A B : Type} (m : M A) (k : A -> M B) st :
  (forall a st', exists e, k a st' = Raise e) ->
  exists e, bind m k st = Raise e.
Proof.
  intros H. unfold bind. destruct (m st) as [[a st']|e]; [apply H | eauto].
Qed.

Lemma eval_all_fails_later (e : M value) (es : list (M value)) st :
  (forall st', exists x, eval_all es st' = Raise x) ->
  exists x, eval_all (e :: es) st = Raise x.
Proof.
  intros H. cbn [eval_all]. apply bind_fails_right. intros v st'.
  apply bind_fails_left. apply H.
Qed.

Lemma eval_all_fails_first (e : M value) (es : list (M value)) st :
  (exists x, e st = Raise x) -> exists x, eval_all (e :: es) st = Raise x.
Proof. intros H. cbn [eval_all]. now apply bind_fails_left. Qed.

Lemma method_fails_on_argument (n attr : string) (args : list (M value)) st :
  (forall st', exists x, eval_all args st' = Raise x) ->
  exists x, method ext n attr args st = Raise x.
Proof.
  intros H. unfold method, call_through. apply bind_fails_right.
  intros _ st'. apply bind_fails_left. apply H.
Qed.

Lemma load_nspec_coeff st :
  load "nspec_coeff" st = Raise (NameError "nspec_coeff").
Proof. reflexivity. Qed.

Lemma load_spec_coef st : load "spec_coef" st = Raise (NameError "spec_coef").
Proof. reflexivity. Qed.

Lemma lines_263_265_fail st : exists e, lines_263_265 ext st = Raise e.
Proof.
  unfold lines_263_265, tuple. apply bind_fails_left.
  do 3 (apply eval_all_fails_later; intros ?).
  apply eval_all_fails_first. apply method_fails_on_argument. intros s.
  apply eval_all_fails_first. eexists. apply load_nspec_coeff.
Qed.

Lemma index_fails_on_array (a i : M value) st :
  (exists e, a st = Raise e) -> exists e, index ext a i st = Raise e.
Proof. intros H. unfold index. now apply bind_fails_left. Qed.

Lemma lines_248_260_fail st : exists e, lines_248_260 ext st = Raise e.
Proof.
  unfold lines_248_260. apply bind_fails_left.
  unfold call, call_through. apply bind_fails_right. intros _ st'.
  apply bind_fails_left.
  do 2 (apply eval_all_fails_later; intros ?).
  apply eval_all_fails_first. apply index_fails_on_array.
  eexists. apply load_spec_coef.
Qed.

Lemma body_fails st : exists e, body ext st = Raise e.
Proof.
  unfold body. do 6 (apply bind_fails_right; intros ? ?).
  apply lines_263_265_fail.
Qed.

End ClusterMore.

(** X14. The clustering routine returns for no arguments at all: whatever
    the eight arguments are (arrays of any type and shape, or any other
    object) and whatever the library functions return, the call raises. The
    header of the loop over the Gaussian components (lines 248-253) and the
    [return] statement (lines 263-265) raise in every state, the first
    reading the unbound name [spec_coef], the second the unbound name
    [nspec_coeff]. *)
Theorem cluster_returns_for_no_arguments
    (ext : string -> list Cluster.value -> result Cluster.value) :
  (forall a, is_ok (Cluster.__cluster ext a) = false)
  /\ (forall st, is_ok (Cluster.lines_248_260 ext st) = false)
  /\ (forall st, is_ok (Cluster.lines_263_265 ext st) = false)
  /\ (forall st, Cluster.load "spec_coef" st = Raise (NameError "spec_coef"))
  /\ (forall st,
        Cluster.load "nspec_coeff" st = Raise (NameError "nspec_coeff")).
Proof.
  split; [|split; [|split; [|split]]].
  - intros a. unfold Cluster.__cluster.
    destruct (body_fails ext (Cluster.entry a)) as [e ->]. reflexivity.
  - intros st. destruct (lines_248_260_fail ext st) as [e ->]. reflexivity.
  - intros st. destruct (lines_263_265_fail ext st) as [e ->]. reflexivity.
  - intros st. reflexivity.
  - intros st. reflexivity.
Qed.

Section ClusterLists.
Import Cluster.
Variable ext : string -> list value -> result value.

Lemma np_array_of_local (n : string) st v a :
  bool_decide (n ∈ cluster_locals) = true ->
  locals st !! n = Some v -> ext "np.array" [v] = Ok a ->
  method ext "np" "array" [load n] st = Ok (a, st).
Proof.
  intros Hn Hv Ha. unfold method.
  eapply call_through_ok; [apply load_np | | exact Ha].
  apply eval_all_cons; [now apply load_local | apply eval_all_nil].
Qed.

(** What a successful statement leaves behind. *)
Lemma bind_inv {A B : Type} (m : M A) (k : A -> M B) st b st' :
  bind m k st = Ok (b, st') ->
  exists a st1, m st = Ok (a, st1) /\ k a st1 = Ok (b, st').
Proof.
  unfold bind. destruct (m st) as [[a st1]|e]; [eauto | discriminate].
Qed.

Lemma load_inv (n : string) st v st' :
  load n st = Ok (v, st') -> st' = st.
Proof.
  unfold load. intros H.
  repeat match type of H with
         | (if ?c then _ else _) = _ => destruct c
         | match ?o with _ => _ end = _ => destruct o
         end; congruence.
Qed.

Lemma load_local_inv (n : string) st v st' :
  bool_decide (n ∈ cluster_locals) = true ->
  load n st = Ok (v, st') -> locals st !! n = Some v /\ st' = st.
Proof.
  intros Hn. unfold load. rewrite Hn.
  destruct (locals st !! n); [|discriminate]. intros H. now inversion H.
Qed.

Lemma lift_inv {A : Type} (r : result A) st a st' :
  lift r st = Ok (a, st') -> r = Ok a /\ st' = st.
Proof. unfold lift. destruct r; [|discriminate]. intros H. now inversion H. Qed.

Lemma index_inv (a i : M value) st v st' :
  (forall s x s', a s = Ok (x, s') -> s' = s) ->
  (forall s x s', i s = Ok (x, s') -> s' = s) ->
  index ext a i st = Ok (v, st') -> st' = st.
Proof.
  intros Ha Hi H. unfold index in H.
  apply bind_inv in H as (va & s1 & H1 & H).
  apply bind_inv in H as (vi & s2 & H2 & H).
  apply lift_inv in H as [_ ->].
  apply Hi in H2 as ->. now apply Ha in H1.
Qed.

Lemma const_inv (c : value) st v st' :
  const c st = Ok (v, st') -> st' = st.
Proof. intros H. now inversion H. Qed.

Lemma append_inv (n : string) (e : M value) st u st' :
  bool_decide (n ∈ cluster_locals) = true ->
  (forall s x s', e s = Ok (x, s') -> s' = s) ->
  append n e st = Ok (u, st') ->
  exists items v,
    locals st !! n = Some (VList items)
    /\ e st = Ok (v, st)
    /\ st' = set_local n (VList (items ++ [v])) st.
Proof.
  intros Hn He H. unfold append in H.
  apply bind_inv in H as (l & s1 & H1 & H).
  apply (load_local_inv _ _ _ _ Hn) in H1 as [Hl ->].
  apply bind_inv in H as (v & s2 & H2 & H).
  pose proof (He _ _ _ H2) as ->.
  destruct l; try discriminate.
  exists items, v. split; [exact Hl|]. split; [exact H2|].
  unfold store in H. now inversion H.
Qed.

Lemma append_to_a_float (n : string) (e : M value) st x v :
  bool_decide (n ∈ cluster_locals) = true ->
  locals st !! n = Some (VFloat x) -> e st = Ok (v, st) ->
  append n e st = Raise (AttributeError "object has no attribute 'append'").
Proof.
  intros Hn Hx He. unfold append.
  rewrite (bind_ok _ _ _ _ _ (load_local _ _ _ Hn Hx)).
  rewrite (bind_ok _ _ _ _ _ He). reflexivity.
Qed.

Lemma lines_239_244_inv st st' :
  lines_239_244 ext st = Ok (tt, st') ->
  exists t r s c f v1 v2 v3 v4,
    locals st !! "ncomp_type" = Some (VList t)
    /\ locals st !! "nradec" = Some (VList r)
    /\ locals st !! "nstokes" = Some (VList s)
    /\ locals st !! "nspec_coef" = Some (VList c)
    /\ locals st !! "nref_freq" = Some (VList f)
    /\ locals st !! "urd" = Some v1
    /\ st' =
       set_local "nlog_spec_ind" (VFloat 0%float)
         (set_local "nref_freq" (VList (f ++ [v4]))
            (set_local "nspec_coef" (VList (c ++ [v3]))
               (set_local "nstokes" (VList (s ++ [v2]))
                  (set_local "nradec" (VList (r ++ [v1]))
                     (set_local "ncomp_type" (VList (t ++ [VStr "POINT"]))
                        st))))).
Proof.
  intros H. unfold lines_239_244 in H.
  apply bind_inv in H as (u1 & s1 & H1 & H).
  apply append_inv in H1 as (t & w0 & Ht & Hw0 & ->);
    [|reflexivity|apply const_inv].
  inversion Hw0; subst w0; clear Hw0.
  apply bind_inv in H as (u2 & s2 & H2 & H).
  apply append_inv in H2 as (r & v1 & Hr & Hv1 & ->);
    [|reflexivity|apply load_inv].
  apply bind_inv in H as (u3 & s3 & H3 & H).
  apply append_inv in H3 as (s & v2 & Hs & Hv2 & ->);
    [|reflexivity|intros ? ? ?; apply index_inv; [apply load_inv|apply const_inv]].
  apply bind_inv in H as (u4 & s4 & H4 & H).
  apply append_inv in H4 as (c & v3 & Hc & Hv3 & ->);
    [|reflexivity|intros ? ? ?; apply index_inv; [apply load_inv|apply const_inv]].
  apply bind_inv in H as (u5 & s5 & H5 & H).
  apply append_inv in H5 as (f & v4 & Hf & Hv4 & ->);
    [|reflexivity|intros ? ? ?; apply index_inv; [apply load_inv|apply const_inv]].
  rewrite store_ok in H. inversion H; subst st'; clear H.
  apply (load_local_inv "urd" _ _ _ eq_refl) in Hv1 as [Hv1 _].
  unfold set_local in Hr, Hs, Hc, Hf, Hv1; cbn [locals] in Hr, Hs, Hc, Hf, Hv1.
  rewrite !lookup_insert_ne in Hr by discriminate.
  rewrite !lookup_insert_ne in Hs by discriminate.
  rewrite !lookup_insert_ne in Hc by discriminate.
  rewrite !lookup_insert_ne in Hf by discriminate.
  rewrite !lookup_insert_ne in Hv1 by discriminate.
  exists t, r, s, c, f, v1, v2, v3, v4.
  repeat split; assumption || reflexivity.
Qed.

End ClusterLists.

(** X15. The [return] statement of the routine (lines 263-265) raises
    [NameError] on [nspec_coeff] wherever it could be reached: in every
    state in which the first three lists are bound and [np.array] converts
    them, the fourth element of the tuple reads a name that no scope binds
    (the list is called [nspec_coef] on lines 205, 242 and 257). *)
Theorem return_statement_reads_an_unbound_name
    (ext : string -> list Cluster.value -> result Cluster.value)
    (st : Cluster.state) (v1 v2 v3 a1 a2 a3 : Cluster.value) :
  Cluster.locals st !! "ncomp_type" = Some v1 ->
  Cluster.locals st !! "nradec" = Some v2 ->
  Cluster.locals st !! "nstokes" = Some v3 ->
  ext "np.array" [v1] = Ok a1 ->
  ext "np.array" [v2] = Ok a2 ->
  ext "np.array" [v3] = Ok a3 ->
  Cluster.lines_263_265 ext st = Raise (NameError "nspec_coeff").
Proof.
  intros H1 H2 H3 E1 E2 E3.
  unfold Cluster.lines_263_265, Cluster.tuple. apply bind_raise.
  cbn [Cluster.eval_all].
  rewrite (bind_ok _ _ _ _ _
             (np_array_of_local ext "ncomp_type" st v1 a1 eq_refl H1 E1)).
  rewrite (bind_raise (B := list Cluster.value) _ _ st
             (NameError "nspec_coeff")); [reflexivity|].
  rewrite (bind_ok _ _ _ _ _
             (np_array_of_local ext "nradec" st v2 a2 eq_refl H2 E2)).
  rewrite (bind_raise (B := list Cluster.value) _ _ st
             (NameError "nspec_coeff")); [reflexivity|].
  rewrite (bind_ok _ _ _ _ _
             (np_array_of_local ext "nstokes" st v3 a3 eq_refl H3 E3)).
  rewrite (bind_raise (B := list Cluster.value) _ _ st
             (NameError "nspec_coeff")); [reflexivity|].
  apply bind_raise. unfold Cluster.method, Cluster.call_through.
  rewrite (bind_ok _ _ _ _ _ (load_np st)).
  apply bind_raise. cbn [Cluster.eval_all]. apply bind_raise. reflexivity.
Qed.

(** The theorem in the state after lines 202-208, every library call
    returning [None]. *)
Lemma return_statement_reads_an_unbound_name_witness :
  Cluster.lines_263_265 Cluster.returns_none
    (Cluster.fresh_lists
       {| Cluster.locals := ∅; Cluster.logged := [] |})
  = Raise (NameError "nspec_coeff").
Proof.
  apply (return_statement_reads_an_unbound_name Cluster.returns_none
           (Cluster.fresh_lists
              {| Cluster.locals := ∅; Cluster.logged := [] |})
           (Cluster.VList []) (Cluster.VList []) (Cluster.VList [])
           Cluster.VNone Cluster.VNone Cluster.VNone);
    reflexivity.
Defined.

(** X16. One pass through the end of the loop body (lines 239-244) leaves
    the output lists of unequal length and of unequal type: the five lists
    [ncomp_type], [nradec], [nstokes], [nspec_coef] and [nref_freq] each
    grow by one entry (the type ["POINT"] and the coordinate [urd] among
    them), [ngaussian_shape] is left as it was, and [nlog_spec_ind] is
    replaced by the float 0.0. From then on [nlog_spec_ind.append] (line
    259) raises [AttributeError]. *)
Theorem clustered_entry_breaks_the_output_lists
    (ext : string -> list Cluster.value -> result Cluster.value)
    (st st' : Cluster.state) :
  Cluster.lines_239_244 ext st = Ok (tt, st') ->
  (exists t r urd,
      Cluster.locals st !! "ncomp_type" = Some (Cluster.VList t)
      /\ Cluster.locals st' !! "ncomp_type"
         = Some (Cluster.VList (t ++ [Cluster.VStr "POINT"]))
      /\ Cluster.locals st !! "nradec" = Some (Cluster.VList r)
      /\ Cluster.locals st !! "urd" = Some urd
      /\ Cluster.locals st' !! "nradec" = Some (Cluster.VList (r ++ [urd])))
  /\ Cluster.locals st' !! "ngaussian_shape"
     = Cluster.locals st !! "ngaussian_shape"
  /\ Cluster.locals st' !! "nlog_spec_ind"
     = Some (Cluster.VFloat 0%float)
  /\ (forall e v,
        e st' = Ok (v, st') ->
        Cluster.append "nlog_spec_ind" e st'
        = Raise (AttributeError "object has no attribute 'append'")).
Proof.
  intros H.
  apply lines_239_244_inv in H
    as (t & r & s & c & f & v1 & v2 & v3 & v4 & Ht & Hr & Hs & Hc & Hf & Hu & ->).
  split; [|split; [|split]].
  - exists t, r, v1. repeat split; try assumption.
    + unfold Cluster.set_local; cbn [Cluster.locals].
      rewrite !lookup_insert_ne by discriminate. apply lookup_insert_eq.
    + unfold Cluster.set_local; cbn [Cluster.locals].
      rewrite !lookup_insert_ne by discriminate. apply lookup_insert_eq.
  - unfold Cluster.set_local; cbn [Cluster.locals].
    now rewrite !lookup_insert_ne by discriminate.
  - unfold Cluster.set_local; cbn [Cluster.locals]. apply lookup_insert_eq.
  - intros e v He. eapply append_to_a_float; [reflexivity | | exact He].
    unfold Cluster.set_local; cbn [Cluster.locals]. apply lookup_insert_eq.
Qed.

(** The theorem on one pass, every library call returning [None]. *)
Lemma clustered_entry_breaks_the_output_lists_witness :
  (exists t r urd,
      Cluster.locals Cluster.at_line_239 !! "ncomp_type"
      = Some (Cluster.VList t)
      /\ Cluster.locals Cluster.after_line_244 !! "ncomp_type"
         = Some (Cluster.VList (t ++ [Cluster.VStr "POINT"]))
      /\ Cluster.locals Cluster.at_line_239 !! "nradec"
         = Some (Cluster.VList r)
      /\ Cluster.locals Cluster.at_line_239 !! "urd" = Some urd
      /\ Cluster.locals Cluster.after_line_244 !! "nradec"
         = Some (Cluster.VList (r ++ [urd])))
  /\ Cluster.locals Cluster.after_line_244 !! "ngaussian_shape"
     = Cluster.locals Cluster.at_line_239 !! "ngaussian_shape"
  /\ Cluster.locals Cluster.after_line_244 !! "nlog_spec_ind"
     = Some (Cluster.VFloat 0%float)
  /\ (forall e v,
        e Cluster.after_line_244 = Ok (v, Cluster.after_line_244) ->
        Cluster.append "nlog_spec_ind" e Cluster.after_line_244
        = Raise (AttributeError "object has no attribute 'append'")).
Proof.
  apply (clustered_entry_breaks_the_output_lists Cluster.returns_none
           Cluster.at_line_239 Cluster.after_line_244).
  vm_compute. reflexivity.
Defined.

(** ** The command line and the sign convention *)

Section SignFacts.
Import Predict.

Lemma dests_are :
  dests
  = ["ms"; "sky_model"; "output_column"; "row_chunks"; "model_chunks";
     "exp_sign_convention"; "spectra"; "within"; "points_only";
     "num_sources"; "num_workers"; "memory_fraction"; "fieldid";
     "dontcluster"].
Proof. reflexivity. Qed.

Lemma parsed_has (args : gmap string Cluster.value) (n : string) :
  dom args = list_to_set dests -> In n dests -> is_Some (args !! n).
Proof.
  intros Hd Hn. apply elem_of_dom. rewrite Hd.
  apply elem_of_list_to_set. now apply list_elem_of_In.
Qed.

Lemma parsed_has_not (args : gmap string Cluster.value) (n : string) :
  dom args = list_to_set dests -> ~ In n dests -> args !! n = None.
Proof.
  intros Hd Hn. apply not_elem_of_dom. rewrite Hd.
  rewrite elem_of_list_to_set. now rewrite list_elem_of_In.
Qed.

Lemma sign_is_no_dest : ~ In "sign" dests.
Proof.
  rewrite dests_are. cbn [In].
  intros H. repeat (destruct H as [H|H]; [discriminate|]). exact H.
Qed.

End SignFacts.

(** X17. The sign convention of lines 323-328, on every namespace that has
    the attributes of the parser (one for each [add_argument], and no
    other): with [casa] the baseline coordinates are negated, with
    [thompson] they are kept, and with any other value the [else] branch
    raises [AttributeError], not the [ValueError] it spells out, because
    the message reads [args.sign] and the parser defines no argument of
    that name. The [ValueError] of line 328 is raised for no such
    namespace. *)
Theorem sign_convention_never_raises_its_value_error
    (str : Cluster.value -> string) (args : gmap string Cluster.value)
    (uvw : list R) :
  dom args = list_to_set Predict.dests ->
  (exists c,
      args !! "exp_sign_convention" = Some c
      /\ Predict.lines_323_328 str args uvw
         = if Predict.eq_str c "casa" then Ok (List.map Ropp uvw)
           else if Predict.eq_str c "thompson" then Ok uvw
           else Raise (Predict.no_attribute "sign"))
  /\ (forall msg,
        Predict.lines_323_328 str args uvw <> Raise (ValueError msg)).
Proof.
  intros Hd.
  destruct (parsed_has args "exp_sign_convention" Hd) as [c Hc].
  { rewrite dests_are. cbn [In]. tauto. }
  pose proof (parsed_has_not args "sign" Hd sign_is_no_dest) as Hs.
  assert (E : Predict.lines_323_328 str args uvw
              = if Predict.eq_str c "casa" then Ok (List.map Ropp uvw)
                else if Predict.eq_str c "thompson" then Ok uvw
                else Raise (Predict.no_attribute "sign")).
  { unfold Predict.lines_323_328, Predict.getattr. rewrite Hc, Hs.
    cbn [rbind]. destruct (Predict.eq_str c "casa"); [reflexivity|].
    destruct (Predict.eq_str c "thompson"); reflexivity. }
  split; [exists c; split; [exact Hc | exact E]|].
  intros msg. rewrite E.
  destruct (Predict.eq_str c "casa"); [discriminate|].
  destruct (Predict.eq_str c "thompson"); discriminate.
Qed.

(** The theorem on the namespace of the command line [a.ms]. *)
Lemma sign_convention_never_raises_its_value_error_witness :
  (exists c,
      Predict.defaults "a.ms" !! "exp_sign_convention" = Some c
      /\ Predict.lines_323_328 (fun _ => "?") (Predict.defaults "a.ms")
           [1%R; 2%R]
         = if Predict.eq_str c "casa" then Ok (List.map Ropp [1%R; 2%R])
           else if Predict.eq_str c "thompson" then Ok [1%R; 2%R]
           else Raise (Predict.no_attribute "sign"))
  /\ (forall msg,
        Predict.lines_323_328 (fun _ => "?") (Predict.defaults "a.ms")
          [1%R; 2%R]
        <> Raise (ValueError msg)).
Proof.
  apply (sign_convention_never_raises_its_value_error (fun _ => "?")
           (Predict.defaults "a.ms") [1%R; 2%R]).
  vm_compute. reflexivity.
Defined.

(** ** Gaussian components *)

Section GaussianFacts.
Import Predict.

Lemma count_nonzero_cons (b : bool) (bs : list bool) :
  count_nonzero (b :: bs)
  = ((if b then 1 else 0) + count_nonzero bs)%Z.
Proof.
  unfold count_nonzero. destruct b; cbn [List.filter List.length].
  - rewrite Nat2Z.inj_succ. lia.
  - lia.
Qed.

Lemma count_nonzero_nonneg (bs : list bool) : (0 <= count_nonzero bs)%Z.
Proof. unfold count_nonzero. lia. Qed.

Lemma gaussian_components_iff (comp_type : list string) :
  gaussian_components comp_type = true <-> In "GAUSSIAN" comp_type.
Proof.
  unfold gaussian_components. rewrite Z.gtb_lt.
  induction comp_type as [|c cs IH]; cbn [List.map In].
  - unfold count_nonzero. cbn. lia.
  - rewrite count_nonzero_cons.
    pose proof (count_nonzero_nonneg
                  (List.map (fun c => String.eqb c "GAUSSIAN") cs)) as Hn.
    destruct (String.eqb_spec c "GAUSSIAN") as [->|Hne].
    + split; [auto | lia].
    + rewrite Z.add_0_l, IH. split; [auto | intros [H|H]; [congruence|auto]].
Qed.

End GaussianFacts.

(** X18. The shape factor is switched on by any one Gaussian: the flag
    [gaussian_components] is set exactly when some component has the type
    [GAUSSIAN] (in capitals); when it is set the phase of every source,
    the point sources included, is multiplied by its shape factor, and
    when no component is Gaussian the phase is left as it is. *)
Theorem one_gaussian_switches_the_shape_factor_on
    (comp_type : list string) (phase shape : list R) :
  (Predict.gaussian_components comp_type = true <->
   In "GAUSSIAN" comp_type)
  /\ (In "GAUSSIAN" comp_type ->
      Predict.line_361 comp_type phase shape = Predict.times phase shape)
  /\ ((forall c, In c comp_type -> c = "POINT") ->
      Predict.line_361 comp_type phase shape = phase).
Proof.
  split; [apply gaussian_components_iff|]. split.
  - intros H. unfold Predict.line_361.
    now rewrite (proj2 (gaussian_components_iff comp_type) H).
  - intros H. unfold Predict.line_361.
    destruct (Predict.gaussian_components comp_type) eqn:E; [|reflexivity].
    apply gaussian_components_iff in E. apply H in E. discriminate.
Qed.

(** ** Support tables *)

Section TableFacts.
Import Predict.
Variable D : Type.
Variable xds_from_table : string -> result D.

Lemma support_tables_from_spec (ms : string) (tables : list string) :
  forall acc m,
    support_tables_from D xds_from_table acc ms tables = Ok m ->
    (forall t, is_Some (m !! t) <-> In t tables \/ is_Some (acc !! t))
    /\ (forall t d, m !! t = Some d ->
          (In t tables /\ xds_from_table (ms ++ "::" ++ t) = Ok d)
          \/ (~ In t tables /\ acc !! t = Some d)).
Proof.
  induction tables as [|t0 ts IH]; intros acc m H; cbn in H.
  - injection H as <-. split.
    + intros t. cbn. tauto.
    + intros t d Hd. right. cbn. tauto.
  - destruct (xds_from_table (ms ++ "::" ++ t0)) as [d0|e] eqn:E0;
      [|discriminate].
    cbn [rbind] in H. destruct (IH _ _ H) as [K V]. split.
    + intros t. rewrite K. cbn [In].
      destruct (decide (t0 = t)) as [->|Hne].
      * rewrite lookup_insert_eq. split; [auto | intros _; right; eauto].
      * rewrite lookup_insert_ne by exact Hne. tauto.
    + intros t d Hd. destruct (V t d Hd) as [[Hin Ho]|[Hnin Ha]].
      * left. split; [now right | exact Ho].
      * destruct (decide (t0 = t)) as [->|Hne].
        -- rewrite lookup_insert_eq in Ha. injection Ha as <-.
           left. split; [now left | exact E0].
        -- rewrite lookup_insert_ne in Ha by exact Hne. right.
           split; [|exact Ha]. intros [H0|H0]; [congruence|contradiction].
Qed.

Lemma support_tables_from_ok (ms : string) (tables : list string) :
  forall acc,
    is_ok (support_tables_from D xds_from_table acc ms tables)
    = forallb (fun t => is_ok (xds_from_table (ms ++ "::" ++ t))) tables.
Proof.
  induction tables as [|t0 ts IH]; intros acc; [reflexivity|].
  cbn [support_tables_from forallb].
  destruct (xds_from_table (ms ++ "::" ++ t0)) as [d0|e]; cbn; [apply IH|].
  reflexivity.
Qed.

End TableFacts.

(** X19. [support_tables] returns the tables it was asked for and no
    other: when it returns, the keys of the dictionary are exactly the
    names in [tables], and the value under a name is what
    [xds_from_table] gave for that table of the measurement set
    ([<ms>::<name>]); it returns exactly when every one of the tables can
    be read. *)
Theorem support_tables_returns_the_tables_asked_for
    (D : Type) (xds_from_table : string -> result D)
    (ms : string) (tables : list string) (table_map : gmap string D) :
  Predict.support_tables D xds_from_table ms tables = Ok table_map ->
  (forall t, is_Some (table_map !! t) <-> In t tables)
  /\ (forall t d,
        table_map !! t = Some d ->
        xds_from_table (ms ++ "::" ++ t) = Ok d)
  /\ forallb (fun t => is_ok (xds_from_table (ms ++ "::" ++ t))) tables
     = true.
Proof.
  intros H. unfold Predict.support_tables in H.
  destruct (support_tables_from_spec D xds_from_table ms tables ∅ _ H)
    as [K V].
  split; [|split].
  - intros t. rewrite K. rewrite lookup_empty.
    split; [intros [Hin|[x Hx]]; [exact Hin | discriminate] | auto].
  - intros t d Hd. destruct (V t d Hd) as [[_ Ho]|[_ Ha]]; [exact Ho|].
    rewrite lookup_empty in Ha. discriminate.
  - rewrite <- (support_tables_from_ok D xds_from_table ms tables ∅).
    now rewrite H.
Qed.

(** The theorem on the four tables [predict] asks for, every table being
    read as its own name. *)
Lemma support_tables_returns_the_tables_asked_for_witness :
  (forall t,
      is_Some
        ((<["POLARIZATION" := "a.ms::POLARIZATION"]>
           (<["SPECTRAL_WINDOW" := "a.ms::SPECTRAL_WINDOW"]>
              (<["DATA_DESCRIPTION" := "a.ms::DATA_DESCRIPTION"]>
                 (<["FIELD" := "a.ms::FIELD"]> ∅))) : gmap string string)
         !! t)
      <-> In t ["FIELD"; "DATA_DESCRIPTION"; "SPECTRAL_WINDOW";
                "POLARIZATION"])
  /\ (forall t d,
        (<["POLARIZATION" := "a.ms::POLARIZATION"]>
           (<["SPECTRAL_WINDOW" := "a.ms::SPECTRAL_WINDOW"]>
              (<["DATA_DESCRIPTION" := "a.ms::DATA_DESCRIPTION"]>
                 (<["FIELD" := "a.ms::FIELD"]> ∅))) : gmap string string)
        !! t = Some d ->
        Ok ("a.ms" ++ "::" ++ t) = Ok d)
  /\ forallb (fun t => is_ok (Ok ("a.ms" ++ "::" ++ t) : result string))
       ["FIELD"; "DATA_DESCRIPTION"; "SPECTRAL_WINDOW"; "POLARIZATION"]
     = true.
Proof.
  apply (support_tables_returns_the_tables_asked_for string
           (fun name => Ok name) "a.ms"
           ["FIELD"; "DATA_DESCRIPTION"; "SPECTRAL_WINDOW"; "POLARIZATION"]).
  reflexivity.
Defined.

(** ** The shape of the visibilities *)

(** X21. The visibilities handed to the writer have three axes, whatever
    the polarisation setup: for every setup [corr_schema] accepts, the
    visibilities of shape (row, chan) followed by the shape of the schema
    leave lines 387-388 with the shape (row, chan, NUM_CORR); the reshape
    of the 2x2 case keeps the number of elements and does not raise. *)
Theorem visibilities_end_with_one_correlation_axis
    (p : Schema.pol) (s : Schema.pylist) (row chan : Z) :
  Schema.corr_schema p = Ok s ->
  Predict.lines_387_388 (Schema.NUM_CORR p)
    ([row; chan] ++ List.map Z.of_nat (Schema.shape s))
  = Ok [row; chan; Schema.NUM_CORR p].
Proof.
  destruct p as [n l]. unfold Schema.corr_schema, Predict.lines_387_388.
  cbn [Schema.NUM_CORR Schema.CORR_TYPE].
  destruct (Z.eqb_spec n 4) as [->|N4].
  { destruct l as [|c0 [|c1 [|c2 [|c3 l]]]]; try discriminate.
    cbn. intros E; injection E as <-. cbn.
    unfold Predict.reshape, Predict.size. cbn [List.fold_right].
    match goal with
    | |- (if ?b then _ else _) = _ =>
        replace b with true by (symmetry; apply Z.eqb_eq; cbn; ring)
    end.
    reflexivity. }
  destruct (Z.eqb_spec n 2) as [->|N2].
  { destruct l as [|c0 [|c1 l]]; try discriminate.
    cbn. intros E; injection E as <-. reflexivity. }
  destruct (Z.eqb_spec n 1) as [->|N1].
  { destruct l as [|c0 l]; try discriminate.
    cbn. intros E; injection E as <-. reflexivity. }
  discriminate.
Qed.

(** The theorem on the four linear correlations, 10 rows and 3 channels. *)
Lemma visibilities_end_with_one_correlation_axis_witness :
  Predict.lines_387_388 4 ([10; 3] ++ List.map Z.of_nat [2; 2]%nat)
  = Ok [10; 3; 4].
Proof.
  apply (visibilities_end_with_one_correlation_axis
           {| Schema.NUM_CORR := 4; Schema.CORR_TYPE := [9; 10; 11; 12] |}
           (Schema.PyList
              [Schema.PyList [Schema.Code 9; Schema.Code 10];
               Schema.PyList [Schema.Code 11; Schema.Code 12]])
           10 3).
  reflexivity.
Defined.

(** ** The loop over the datasets *)

Section LoopFacts.
Import Predict.
Variable W : Type.
Variable graph : dataset -> result W.

Lemma lines_301_391_from (fieldid : Z) (datasets : list dataset) :
  forall writes,
    lines_301_391 W graph fieldid datasets writes
    = (more <- graphs W graph
                 (List.filter (fun xds => (FIELD_ID xds =? fieldid)%Z)
                    datasets) ;;
       Ok (writes ++ more)%list).
Proof.
  induction datasets as [|x xs IH]; intros writes;
    cbn [lines_301_391 List.filter graphs rbind].
  - now rewrite List.app_nil_r.
  - destruct (FIELD_ID x =? fieldid)%Z; cbn [negb graphs rbind].
    + destruct (graph x) as [w|e]; cbn [rbind]; [|reflexivity].
      rewrite IH.
      destruct (graphs W graph _) as [more|e]; cbn [rbind]; [|reflexivity].
      now rewrite <- List.app_assoc.
    + apply IH.
Qed.

Lemma graphs_length (datasets : list dataset) (writes : list W) :
  graphs W graph datasets = Ok writes ->
  List.length writes = List.length datasets.
Proof.
  revert writes. induction datasets as [|x xs IH]; intros writes;
    cbn [graphs].
  - intros E; injection E as <-. reflexivity.
  - destruct (graph x) as [w|e]; cbn [rbind]; [|discriminate].
    destruct (graphs W graph xs) as [ws|e]; cbn [rbind]; [|discriminate].
    intros E; injection E as <-. cbn [List.length]. f_equal. now apply IH.
Qed.

Lemma no_dataset_of_the_field (fieldid : Z) (datasets : list dataset) :
  (forall xds, In xds datasets -> FIELD_ID xds <> fieldid) ->
  List.filter (fun xds => (FIELD_ID xds =? fieldid)%Z) datasets = [].
Proof.
  induction datasets as [|x xs IH]; intros H; [reflexivity|].
  cbn [List.filter].
  destruct (Z.eqb_spec (FIELD_ID x) fieldid) as [Heq|Hne].
  - exfalso. exact (H x (or_introl eq_refl) Heq).
  - apply IH. intros y Hy. apply H. now right.
Qed.

End LoopFacts.

(** X22. [predict] touches the selected field only: whatever lines
    311-389 do with a dataset, the loop builds its writes from the
    datasets whose [FIELD_ID] is [args.fieldid], in their order, and
    raises only what one of those raises; the datasets of the other fields
    are skipped unread. When the loop returns there is one write for each
    dataset of the field; a field id that no dataset carries gives no
    write and no error. *)
Theorem loop_touches_the_selected_field_only
    (W : Type) (graph : Predict.dataset -> result W)
    (fieldid : Z) (datasets : list Predict.dataset) :
  Predict.lines_301_391 W graph fieldid datasets []
  = Predict.graphs W graph
      (List.filter (fun xds => (Predict.FIELD_ID xds =? fieldid)%Z) datasets)
  /\ (forall writes,
        Predict.lines_301_391 W graph fieldid datasets [] = Ok writes ->
        List.length writes
        = List.length
            (List.filter (fun xds => (Predict.FIELD_ID xds =? fieldid)%Z)
               datasets))
  /\ ((forall xds, In xds datasets -> Predict.FIELD_ID xds <> fieldid) ->
      Predict.lines_301_391 W graph fieldid datasets [] = Ok []).
Proof.
  assert (E : Predict.lines_301_391 W graph fieldid datasets []
              = Predict.graphs W graph
                  (List.filter
                     (fun xds => (Predict.FIELD_ID xds =? fieldid)%Z)
                     datasets)).
  { rewrite lines_301_391_from.
    destruct (Predict.graphs W graph _) as [more|e]; reflexivity. }
  split; [exact E|]. split.
  - intros writes H. rewrite E in H. now apply graphs_length in H.
  - intros H. rewrite E.
    now rewrite (no_dataset_of_the_field fieldid datasets H).
Qed.
